(** * Brocade NOS switch driver ([hil/ext/switches/brocade.py])

    A shallow embedding of the driver: the regular expressions it uses, the
    XML documents it reads, the requests it sends, and the reader and mutator
    methods of class [Brocade].  Part I holds the definitions, Part II the
    theorems about them. *)

From Stdlib Require Import Ascii String List ZArith NArith Arith Bool Lia.
From Stdlib Require Import DecimalString.
Import ListNotations.

Set Implicit Arguments.

(* ================================================================= *)
(** * Part I: definitions *)
(* ================================================================= *)

(** ** Exceptions and results *)

(** The exceptions that can leave a driver method. *)
Inductive exn : Type :=
| BadArgumentError (msg : string)
| SwitchError (msg : string)
| AssertionError (msg : string)
| AttributeError
| TypeError
| ValueError
| XMLSyntaxError.

Inductive result (A : Type) : Type :=
| Ok (a : A)
| Raise (e : exn).

Arguments Ok {A} a.
Arguments Raise {A} e.

(** ** Python's [re] on the patterns of the driver *)

Module Re.

Definition subject := list ascii.

(** [\d] on a byte string: the ten ASCII digits. *)
Definition is_digit (c : ascii) : bool :=
  let n := N_of_ascii c in ((48 <=? n) && (n <=? 57))%N.

Definition newline : ascii := ascii_of_N 10.

(** Abstract syntax of the patterns.  Capturing groups do not change which
    text matches, so a group is its body. *)
Inductive regex : Type :=
| Bol                       (* ^ *)
| Eol                       (* $ *)
| Digit                     (* \d *)
| Lit (c : ascii)
| Seq (r1 r2 : regex)
| Opt (r : regex)           (* r? , greedy *)
| Star (r : regex)          (* r* , greedy *)
| Plus (r : regex).         (* r+ , greedy *)

(** Greedy iteration of [step]: longest chains first, an iteration that
    consumes nothing ends the loop. *)
Fixpoint star_ends (step : subject -> list subject) (fuel : nat)
                   (s : subject) : list subject :=
  match fuel with
  | O => [s]
  | S fuel' =>
      flat_map (fun s' => if length s' <? length s
                          then star_ends step fuel' s' else [])
               (step s) ++ [s]
  end.

(** [ends n r s]: the backtracking matcher as a list of successes.  [s] is
    what is left of a subject of length [n]; the result lists, in the order
    in which the matcher tries them, what is left after a match of [r]. *)
Fixpoint ends (n : nat) (r : regex) (s : subject) : list subject :=
  match r with
  | Bol => if length s =? n then [s] else []
  | Eol =>
      match s with
      | [] => [s]
      | [c] => if Ascii.eqb c newline then [s] else []
      | _ => []
      end
  | Digit =>
      match s with
      | c :: s' => if is_digit c then [s'] else []
      | [] => []
      end
  | Lit a =>
      match s with
      | c :: s' => if Ascii.eqb c a then [s'] else []
      | [] => []
      end
  | Seq r1 r2 => flat_map (ends n r2) (ends n r1 s)
  | Opt r1 => ends n r1 s ++ [s]
  | Star r1 => star_ends (ends n r1) (length s) s
  | Plus r1 =>
      flat_map (fun s' => star_ends (ends n r1) (length s') s') (ends n r1 s)
  end.

(** A match object: the text of group 0. *)
Record match_object : Type := { group : string }.

Definition consumed (s rest : subject) : string :=
  string_of_list_ascii (firstn (length s - length rest) s).

(** [pattern.match(s)]: a match starting at the first character. *)
Definition re_match (r : regex) (s : string) : option match_object :=
  let l := list_ascii_of_string s in
  match ends (length l) r l with
  | rest :: _ => Some {| group := consumed l rest |}
  | [] => None
  end.

Fixpoint search_from (r : regex) (n : nat) (s : subject)
  : option match_object :=
  match ends n r s with
  | rest :: _ => Some {| group := consumed s rest |}
  | [] =>
      match s with
      | [] => None
      | _ :: s' => search_from r n s'
      end
  end.

(** [re.search(r, s)]: the match at the leftmost position that has one. *)
Definition re_search (r : regex) (s : string) : option match_object :=
  let l := list_ascii_of_string s in search_from r (length l) l.

(** The declarative reading of a pattern: [rmatch n r s s'] when [r] can
    match from [s] and leave [s'], in a subject of length [n]. *)
Inductive rmatch (n : nat) : regex -> subject -> subject -> Prop :=
| rm_bol s : length s = n -> rmatch n Bol s s
| rm_eol_end : rmatch n Eol [] []
| rm_eol_nl : rmatch n Eol [newline] [newline]
| rm_digit c s : is_digit c = true -> rmatch n Digit (c :: s) s
| rm_lit c s : rmatch n (Lit c) (c :: s) s
| rm_seq r1 r2 s s1 s2 :
    rmatch n r1 s s1 -> rmatch n r2 s1 s2 -> rmatch n (Seq r1 r2) s s2
| rm_opt_some r s s' : rmatch n r s s' -> rmatch n (Opt r) s s'
| rm_opt_none r s : rmatch n (Opt r) s s
| rm_star_nil r s : rmatch n (Star r) s s
| rm_star_cons r s s1 s2 :
    rmatch n r s s1 -> rmatch n (Star r) s1 s2 -> rmatch n (Star r) s s2
| rm_plus r s s1 s2 :
    rmatch n r s s1 -> rmatch n (Star r) s1 s2 -> rmatch n (Plus r) s s2.

(** [leads n r s x]: the first success of [r] from [s] leaves [x]. *)
Definition leads (n : nat) (r : regex) (s x : subject) : Prop :=
  exists others, ends n r s = x :: others.

End Re.

(** ** XML documents as lxml presents them *)

Module Xml.

#[warnings="-register-all"]
Inductive element : Type :=
| Element (tag : string) (text : option string) (children : list element).

Definition tag (e : element) : string :=
  match e with Element t _ _ => t end.

Definition text (e : element) : option string :=
  match e with Element _ t _ => t end.

Definition children (e : element) : list element :=
  match e with Element _ _ c => c end.

(** [e.find(path)] for a path that is one qualified tag: the first child
    with that tag, or [None]. *)
Definition find (e : element) (path : string) : option element :=
  List.find (fun c => String.eqb (tag c) path) (children e).

End Xml.

(** ** Requests, responses and the device *)

Inductive http_method : Type := GET | POST | PUT | DELETE.

Record request : Type := {
  method : http_method;
  url : string;
  data : option string
}.

(** Why [etree.fromstring] refuses a body: the text is not well-formed
    XML, and lxml raises [XMLSyntaxError]; or the text is a unicode
    string that starts with an XML encoding declaration, which lxml does
    not take, and it raises [ValueError]. *)
Inductive parse_failure : Type :=
| NotWellFormed
| EncodingDeclaration.

(** A response: its status code, the detail the device reports, and its
    body.  The driver hands the body to [etree.fromstring] and to nothing
    else, so the body is kept as the outcome of that parse: [text] is the
    root element, or [None] when [etree.fromstring] raises, and
    [text_failure] then says why it does. *)
Record response : Type := {
  status_code : Z;
  detail : string;
  text : option Xml.element;
  text_failure : parse_failure
}.

(** The device answers a request knowing the requests sent before it. *)
Definition device : Type := list request -> request -> response.

(** A driver computation: it reads the device, appends the requests it
    sends to the log, and returns or raises. *)
Definition M (A : Type) : Type :=
  device -> list request -> result A * list request.

Definition ret {A} (a : A) : M A := fun _ log => (Ok a, log).

Definition raise {A} (e : exn) : M A := fun _ log => (Raise e, log).

Definition bind {A B} (m : M A) (k : A -> M B) : M B :=
  fun dev log =>
    match m dev log with
    | (Ok a, log') => k a dev log'
    | (Raise e, log') => (Raise e, log')
    end.

Notation "x <- m ;; k" := (bind m (fun x => k))
  (at level 61, m at next level, right associativity).
Notation "m ;;; k" := (bind m (fun _ => k))
  (at level 61, right associativity).

(** [try: body except AttributeError: handler]. *)
Definition try_except_AttributeError {A} (body handler : M A) : M A :=
  fun dev log =>
    match body dev log with
    | (Raise AttributeError, log') => handler dev log'
    | out => out
    end.

(** [r.status_code in acceptable_error_codes]. *)
Definition status_in (code : Z) (codes : list Z) : bool :=
  existsb (Z.eqb code) codes.

(** Modelled from the spec: which status codes are a success on their own.
    The transport ([hil.ext.switches._vlan_http]) is not part of the source
    at hand; the spec calls the statuses that need tolerating "non-2xx". *)
Definition status_success (code : Z) : bool :=
  ((200 <=? code) && (code <? 300))%Z.

(** Modelled from the spec: a response is a fault unless its status is a
    success or one of the codes the caller marked acceptable. *)
Definition tolerated (acceptable_error_codes : list Z) (code : Z) : bool :=
  status_success code || status_in code acceptable_error_codes.

(** Modelled from the spec: [_vlan_http.Session._make_request], missing from
    the source at hand.  It performs one request and returns the response;
    a status that is neither a success nor in [acceptable_error_codes] is
    surfaced as [SwitchError] with the device's detail, and is not
    retried. *)
Definition _make_request (method : http_method) (url : string)
    (data : option string) (acceptable_error_codes : list Z) : M response :=
  fun dev log =>
    let req := {| method := method; url := url; data := data |} in
    let r := dev log req in
    if tolerated acceptable_error_codes (status_code r)
    then (Ok r, log ++ [req])
    else (Raise (SwitchError (detail r)), log ++ [req]).

(** [requests.put(url, data=payload, auth=...)]: one PUT request; the
    response is returned whatever its status. *)
Definition requests_put (url : string) (data : option string) : M response :=
  fun dev log =>
    let req := {| method := PUT; url := url; data := data |} in
    (Ok (dev log req), log ++ [req]).

(** The exception of [etree.fromstring] on a body it refuses. *)
Definition fromstring_error (why : parse_failure) : exn :=
  match why with
  | NotWellFormed => XMLSyntaxError
  | EncodingDeclaration => ValueError
  end.

(** [etree.fromstring(response.text)]. *)
Definition fromstring (r : response) : M Xml.element :=
  match text r with
  | Some root => ret root
  | None => raise (fromstring_error (text_failure r))
  end.

(** [x.find(path)] where [x] may be [None]. *)
Definition attr_find (x : option Xml.element) (path : string)
  : M (option Xml.element) :=
  match x with
  | Some e => ret (Xml.find e path)
  | None => raise AttributeError
  end.

(** [x.text] where [x] may be [None]. *)
Definition attr_text (x : option Xml.element) : M (option string) :=
  match x with
  | Some e => ret (Xml.text e)
  | None => raise AttributeError
  end.

(** [re.search(r, s)] where [s] may be [None]. *)
Definition py_re_search (r : Re.regex) (s : option string)
  : M (option Re.match_object) :=
  match s with
  | Some str => ret (Re.re_search r str)
  | None => raise TypeError
  end.

(** ** [hil.ext.switches.common.parse_vlans] *)

Module Common.

(** [int(s)] for a string of ASCII digits. *)
Fixpoint int_digits (acc : N) (s : list ascii) : option N :=
  match s with
  | [] => Some acc
  | c :: s' =>
      if Re.is_digit c
      then int_digits (10 * acc + (N_of_ascii c - 48))%N s'
      else None
  end.

Definition int_of (s : list ascii) : option N :=
  match s with
  | [] => None
  | _ => int_digits 0%N s
  end.

(** [s.split(sep)] for a one-character separator; [cur] is the piece being
    read, reversed. *)
Fixpoint split_on (sep : ascii) (cur : list ascii) (s : list ascii)
  : list (list ascii) :=
  match s with
  | [] => [rev cur]
  | c :: s' =>
      if Ascii.eqb c sep then rev cur :: split_on sep [] s'
      else split_on sep (c :: cur) s'
  end.

(** What is before and after the first [sep], if there is one. *)
Fixpoint cut_at (sep : ascii) (s : list ascii)
  : option (list ascii * list ascii) :=
  match s with
  | [] => None
  | c :: s' =>
      if Ascii.eqb c sep then Some ([], s')
      else match cut_at sep s' with
           | Some (a, b) => Some (c :: a, b)
           | None => None
           end
  end.

(** [range(lo, hi + 1)]. *)
Definition range_incl (lo hi : N) : list N :=
  map (fun i => (lo + N.of_nat i)%N) (seq 0 (N.to_nat (hi + 1 - lo))).

(** Modelled from the spec: the expansion of one comma-separated token.  A
    bare integer denotes itself, [lo-hi] the inclusive range; a token that
    is not numeric is a parse error. *)
Definition expand_token (tok : list ascii) : result (list N) :=
  match cut_at "-"%char tok with
  | Some (lo, hi) =>
      match int_of lo, int_of hi with
      | Some l, Some h => Ok (range_incl l h)
      | _, _ => Raise ValueError
      end
  | None =>
      match int_of tok with
      | Some v => Ok [v]
      | None => Raise ValueError
      end
  end.

Fixpoint expand_all (toks : list (list ascii)) : result (list N) :=
  match toks with
  | [] => Ok []
  | t :: toks' =>
      match expand_token t with
      | Ok vs =>
          match expand_all toks' with
          | Ok ws => Ok (vs ++ ws)
          | Raise e => Raise e
          end
      | Raise e => Raise e
      end
  end.

(** Modelled from the spec: [parse_vlans], missing from the source at hand.
    It expands every comma-separated token of its argument, in order. *)
Definition parse_vlans (raw_vlans : string) : result (list N) :=
  expand_all (split_on ","%char [] (list_ascii_of_string raw_vlans)).

End Common.

(** [raise] the error of a pure result, or return its value. *)
Definition lift_result {A} (r : result A) : M A :=
  match r with
  | Ok a => ret a
  | Raise e => raise e
  end.

(** ['%s' % x] for an integer. *)
Definition str_of_N (x : N) : string :=
  NilEmpty.string_of_uint (N.to_uint x).

(** ** The driver *)

(** The columns of a [Brocade] row. *)
Record Brocade : Type := {
  hostname : string;
  username : string;
  password : string;
  interface_type : string
}.

Local Open Scope string_scope.

(** [val] of [validate_port_name]: the pattern [^\d+/\d+(/\d+)?$]. *)
Definition port_name_re : Re.regex :=
  Re.Seq Re.Bol
    (Re.Seq (Re.Plus Re.Digit)
       (Re.Seq (Re.Lit "/")
          (Re.Seq (Re.Plus Re.Digit)
             (Re.Seq (Re.Opt (Re.Seq (Re.Lit "/") (Re.Plus Re.Digit)))
                Re.Eol)))).

Definition validate_port_name (port : string) : result unit :=
  match Re.re_match port_name_re port with
  | None =>
      Raise (BadArgumentError
               ("Invalid port name. Valid port names for " ++
                "this switch are of the from 1/0/1 or 1/2"))
  | Some _ => Ok tt
  end.

Definition get_capabilities (self : Brocade) : list string := [].

Definition _construct_url (self : Brocade) (interface suffix : string)
  : string :=
  hostname self ++ "/rest/config/running/interface/" ++
  interface_type self ++ "/%22" ++ interface ++ "%22" ++
  (if String.eqb suffix "" then "" else "/switchport/" ++ suffix).

Definition _construct_tag (name : string) : string :=
  "{urn:brocade.com:mgmt:brocade-interface}" ++ name.

Definition _port_shutdown (self : Brocade) (interface : string) : M unit :=
  let payload := "<shutdown>true</shutdown>" in
  let url := _construct_url self interface "" in
  _make_request POST url (Some payload) [409%Z] ;;;
  ret tt.

(** [x == "true"] for an element's text, which may be [None]. *)
Definition text_is (x : option string) (s : string) : bool :=
  match x with
  | Some t => String.eqb t s
  | None => false
  end.

Definition _is_interface_off (self : Brocade) (interface : string) : M bool :=
  let url := _construct_url self interface "" in
  response <- _make_request GET url None [] ;;
  root <- fromstring response ;;
  let shutdown := Xml.find root (_construct_tag "shutdown") in
  match shutdown with
  | None => ret false
  | Some sd =>
      if text_is (Xml.text sd) "true" then ret true
      else raise (SwitchError "Could not determine if interface is off")
  end.

Definition _get_mode (self : Brocade) (interface : string)
  : M (option string) :=
  let url := _construct_url self interface "mode" in
  response <- _make_request GET url None [] ;;
  root <- fromstring response ;;
  mode <- attr_text (Xml.find root (_construct_tag "vlan-mode")) ;;
  ret mode.

(** [mode in ['access', 'trunk']]. *)
Definition mode_is_valid (mode : string) : bool :=
  existsb (String.eqb mode) ["access"; "trunk"].

Definition _enable_and_set_mode (self : Brocade) (interface mode : string)
  : M unit :=
  let url := _construct_url self interface "" in
  off <- _is_interface_off self interface ;;
  (if off
   then _make_request DELETE (url ++ "/shutdown") None [] ;;; ret tt
   else ret tt) ;;;
  let payload := "<switchport></switchport>" in
  _make_request POST url (Some payload) [409%Z] ;;;
  if mode_is_valid mode then
    let url := _construct_url self interface "mode" in
    let payload := "<mode><vlan-mode>" ++ mode ++ "</vlan-mode></mode>" in
    _make_request PUT url (Some payload) [] ;;;
    ret tt
  else raise (AssertionError "Invalid mode").

(** The pattern [(\d+(-\d+)?)(,\d+(-\d+)?)*] of [_get_vlans]. *)
Definition vlan_token_re : Re.regex :=
  Re.Seq (Re.Plus Re.Digit) (Re.Opt (Re.Seq (Re.Lit "-") (Re.Plus Re.Digit))).

Definition vlan_list_re : Re.regex :=
  Re.Seq vlan_token_re (Re.Star (Re.Seq (Re.Lit ",") vlan_token_re)).

(** Lines 163-169 of [_get_vlans]: from the text of the [add] element to the
    list that is returned. *)
Definition vlans_of_text (vlans : option string) : M (list (string * N)) :=
  match_ <- py_re_search vlan_list_re vlans ;;
  match match_ with
  | None => ret []
  | Some m =>
      vlan_list <- lift_result (Common.parse_vlans (Re.group m)) ;;
      ret (map (fun x => ("vlan/" ++ str_of_N x, x)) vlan_list)
  end.

Definition _get_vlans (self : Brocade) (interface : string)
  : M (list (string * N)) :=
  try_except_AttributeError
    (let url := _construct_url self interface "trunk" in
     response <- _make_request GET url None [] ;;
     root <- fromstring response ;;
     allowed <- ret (Xml.find root (_construct_tag "allowed")) ;;
     vlan <- attr_find allowed (_construct_tag "vlan") ;;
     add <- attr_find vlan (_construct_tag "add") ;;
     vlans <- attr_text add ;;
     vlans_of_text vlans)
    (ret []).

Definition _get_native_vlan (self : Brocade) (interface : string)
  : M (option (string * option string)) :=
  try_except_AttributeError
    (let url := _construct_url self interface "trunk" in
     response <- _make_request GET url None [] ;;
     root <- fromstring response ;;
     vlan <- attr_text (Xml.find root (_construct_tag "native-vlan")) ;;
     ret (Some ("vlan/native", vlan)))
    (ret None).

Definition _add_vlan_to_trunk (self : Brocade) (interface vlan : string)
  : M unit :=
  _enable_and_set_mode self interface "trunk" ;;;
  let url := _construct_url self interface "trunk/allowed/vlan" in
  let payload := "<vlan><add>" ++ vlan ++ "</vlan></vlan>" in
  _make_request PUT url (Some payload) [] ;;;
  ret tt.

Definition _remove_vlan_from_trunk (self : Brocade) (interface vlan : string)
  : M unit :=
  let url := _construct_url self interface "trunk/allowed/vlan" in
  let payload := "<vlan><remove>" ++ vlan ++ "</remove></vlan>" in
  _make_request PUT url (Some payload) [] ;;;
  ret tt.

Definition _remove_all_vlans_from_trunk (self : Brocade) (interface : string)
  : M unit :=
  let url := _construct_url self interface "trunk/allowed/vlan" in
  let payload := "<vlan><none>true</none></vlan>" in
  requests_put url (Some payload) ;;;
  ret tt.

Definition _disable_native_tag (self : Brocade) (interface : string)
  : M unit :=
  let url := _construct_url self interface "trunk/tag/native-vlan" in
  _make_request DELETE url None [404%Z] ;;;
  ret tt.

Definition _set_native_vlan (self : Brocade) (interface vlan : string)
  : M unit :=
  _enable_and_set_mode self interface "trunk" ;;;
  _disable_native_tag self interface ;;;
  let url := _construct_url self interface "trunk" in
  let payload := "<trunk><native-vlan>" ++ vlan ++ "</native-vlan></trunk>" in
  _make_request PUT url (Some payload) [] ;;;
  ret tt.

Definition _remove_native_vlan (self : Brocade) (interface : string)
  : M unit :=
  let url := _construct_url self interface "trunk/native-vlan" in
  _make_request DELETE url None [] ;;;
  ret tt.

(** ** Vocabulary of the statements *)

Module Shape.

(** A segment: a non-empty run of ASCII digits. *)
Definition is_segment (l : list ascii) : bool :=
  match l with
  | [] => false
  | _ => forallb Re.is_digit l
  end.

(** The port names of the docstring, [1/0/1] or [1/2]: two or three
    segments separated by [/]. *)
Definition port_form (port : string) : bool :=
  let segs := Common.split_on "/"%char [] (list_ascii_of_string port) in
  ((length segs =? 2) || (length segs =? 3))%nat && forallb is_segment segs.

(** One token of the list grammar, [INT] or [INT-INT], by its digits. *)
Inductive token : Type :=
| Single (v : list ascii)
| Range (lo hi : list ascii).

Definition token_ok (t : token) : bool :=
  match t with
  | Single v => is_segment v
  | Range lo hi => is_segment lo && is_segment hi
  end.

Definition token_text (t : token) : list ascii :=
  match t with
  | Single v => v
  | Range lo hi => lo ++ "-"%char :: hi
  end.

(** The text of a non-empty comma-separated list of tokens. *)
Definition render (t : token) (ts : list token) : list ascii :=
  token_text t ++ flat_map (fun u => ","%char :: token_text u) ts.

(** The number a run of digits writes, in base ten. *)
Definition digit_value (c : ascii) : N := (N_of_ascii c - 48)%N.

Definition value (ds : list ascii) : N :=
  fold_left (fun acc c => (10 * acc + digit_value c)%N) ds 0%N.

(** What a token stands for: a bare integer for itself, [lo-hi] for every
    integer from [lo] to [hi]. *)
Definition denotes (t : token) (x : N) : Prop :=
  match t with
  | Single v => x = value v
  | Range lo hi => (value lo <= x <= value hi)%N
  end.

Definition token_values (t : token) : list N :=
  match t with
  | Single v => [value v]
  | Range lo hi => Common.range_incl (value lo) (value hi)
  end.

Definition starts_digit (s : list ascii) : bool :=
  match s with
  | c :: _ => Re.is_digit c
  | [] => false
  end.

(** [s] starts with [sep] and then a digit. *)
Definition starts_sep (sep : ascii) (s : list ascii) : bool :=
  match s with
  | c :: s' => Ascii.eqb c sep && starts_digit s'
  | [] => false
  end.

(** Token [t] cannot be read any further into [post]. *)
Definition token_stops (t : token) (post : list ascii) : bool :=
  negb (starts_digit post) &&
  match t with
  | Single _ => negb (starts_sep "-"%char post)
  | Range _ _ => true
  end.

(** The list [t :: ts] cannot be read any further into [post]: its last
    token stops there and no further [,INT] follows. *)
Fixpoint stops_after (t : token) (ts : list token) (post : list ascii)
  : bool :=
  match ts with
  | [] => token_stops t post && negb (starts_sep ","%char post)
  | u :: ts' => stops_after u ts' post
  end.

Definition no_digit (l : list ascii) : bool :=
  forallb (fun c => negb (Re.is_digit c)) l.

End Shape.

(** ** The requests of the driver, by what they ask for *)

Module Req.

(** Read the configuration of the port. *)
Definition state (self : Brocade) (interface : string) : request :=
  {| method := GET; url := _construct_url self interface ""; data := None |}.

(** Set the shutdown flag. *)
Definition shutdown (self : Brocade) (interface : string) : request :=
  {| method := POST; url := _construct_url self interface "";
     data := Some "<shutdown>true</shutdown>" |}.

(** Clear the shutdown flag. *)
Definition no_shutdown (self : Brocade) (interface : string) : request :=
  {| method := DELETE;
     url := _construct_url self interface "" ++ "/shutdown";
     data := None |}.

(** Enable switching. *)
Definition switchport (self : Brocade) (interface : string) : request :=
  {| method := POST; url := _construct_url self interface "";
     data := Some "<switchport></switchport>" |}.

(** Read the mode. *)
Definition get_mode (self : Brocade) (interface : string) : request :=
  {| method := GET; url := _construct_url self interface "mode";
     data := None |}.

(** Set the mode. *)
Definition set_mode (self : Brocade) (interface mode : string) : request :=
  {| method := PUT; url := _construct_url self interface "mode";
     data := Some ("<mode><vlan-mode>" ++ mode ++ "</vlan-mode></mode>") |}.

(** Read the trunk configuration. *)
Definition trunk (self : Brocade) (interface : string) : request :=
  {| method := GET; url := _construct_url self interface "trunk";
     data := None |}.

(** Add a VLAN to the allowed list. *)
Definition add_vlan (self : Brocade) (interface vlan : string) : request :=
  {| method := PUT;
     url := _construct_url self interface "trunk/allowed/vlan";
     data := Some ("<vlan><add>" ++ vlan ++ "</vlan></vlan>") |}.

(** Remove a VLAN from the allowed list. *)
Definition remove_vlan (self : Brocade) (interface vlan : string) : request :=
  {| method := PUT;
     url := _construct_url self interface "trunk/allowed/vlan";
     data := Some ("<vlan><remove>" ++ vlan ++ "</remove></vlan>") |}.

(** Set the allowed list to none. *)
Definition remove_all_vlans (self : Brocade) (interface : string) : request :=
  {| method := PUT;
     url := _construct_url self interface "trunk/allowed/vlan";
     data := Some "<vlan><none>true</none></vlan>" |}.

(** Disable tagging of the native VLAN. *)
Definition disable_native_tag (self : Brocade) (interface : string)
  : request :=
  {| method := DELETE;
     url := _construct_url self interface "trunk/tag/native-vlan";
     data := None |}.

(** Set the native VLAN. *)
Definition native_vlan (self : Brocade) (interface vlan : string) : request :=
  {| method := PUT; url := _construct_url self interface "trunk";
     data := Some ("<trunk><native-vlan>" ++ vlan ++
                   "</native-vlan></trunk>") |}.

(** The requests of a completed [_enable_and_set_mode], for a port that
    was found shut down or not. *)
Definition mode_sequence (self : Brocade) (interface mode : string)
    (was_off : bool) : list request :=
  (state self interface ::
   (if was_off then [no_shutdown self interface] else []) ++
   [switchport self interface; set_mode self interface mode])%list.

(** The requests [_enable_and_set_mode] sends before it looks at [mode]. *)
Definition enable_sequence (self : Brocade) (interface : string)
    (was_off : bool) : list request :=
  (state self interface ::
   (if was_off then [no_shutdown self interface] else []) ++
   [switchport self interface])%list.

End Req.

(** The elements found by following [path] from [root], one [find] after
    the other. *)
Fixpoint find_path (root : Xml.element) (path : list string)
  : option Xml.element :=
  match path with
  | [] => Some root
  | name :: path' =>
      match Xml.find root name with
      | Some child => find_path child path'
      | None => None
      end
  end.

(** ** Simulated devices *)

Module Sim.

Definition sw : Brocade :=
  {| hostname := "http://switch"; username := "admin"; password := "secret";
     interface_type := "TenGigabitEthernet" |}.

Definition reply (code : Z) (doc : option Xml.element) : response :=
  {| status_code := code; detail := "device detail"; text := doc;
     text_failure := NotWellFormed |}.

(** A device that gives every request the same answer. *)
Definition always (code : Z) (doc : option Xml.element) : device :=
  fun _ _ => reply code doc.

(** A device that plays a script: the request number [i] gets the answer
    number [i], and [default] once the script is over. *)
Definition scripted (script : list response) (default : response) : device :=
  fun log _ => nth (length log) script default.

(** An interface that is up and has nothing configured. *)
Definition doc_up : Xml.element := Xml.Element "interface" None [].

(** An interface that is shut down. *)
Definition doc_down : Xml.element :=
  Xml.Element "interface" None
    [Xml.Element (_construct_tag "shutdown") (Some "true") []].

(** An interface whose shutdown element says something else. *)
Definition doc_odd : Xml.element :=
  Xml.Element "interface" None
    [Xml.Element (_construct_tag "shutdown") (Some "false") []].

(** A trunk with an allowed list and a native VLAN. *)
Definition doc_trunk : Xml.element :=
  Xml.Element "trunk" None
    [Xml.Element (_construct_tag "allowed") None
       [Xml.Element (_construct_tag "vlan") None
          [Xml.Element (_construct_tag "add") (Some "12,14-18") []]];
     Xml.Element (_construct_tag "native-vlan") (Some "50") []].

(** ["1/2"] followed by a newline. *)
Definition port_with_newline : string :=
  "1/2" ++ String Re.newline EmptyString.

End Sim.

(** The errors that come from the device or from its answer, not from the
    arguments of the call. *)
Definition device_error (e : exn) : Prop :=
  match e with
  | SwitchError _ | XMLSyntaxError | ValueError => True
  | _ => False
  end.

(** [l] is a beginning of [full], possibly all of it. *)
Definition beginning {A} (l full : list A) : Prop :=
  exists rest, full = (l ++ rest)%list.

(** ** More of the driver *)

(** [session]: the driver is its own session. *)
Definition session (self : Brocade) : Brocade := self.

(** ** Vocabulary of the further statements *)


(** The names [validate_port_name] lets through: the port names of the
    docstring, and those names followed by one newline. *)
Definition passes_validation (port : string) : Prop :=
  Shape.port_form port = true \/
  exists q, Shape.port_form q = true /\
            port = q ++ String Re.newline EmptyString.

(** The message of [validate_port_name]. *)
Definition invalid_port_name : string :=
  "Invalid port name. Valid port names for " ++
  "this switch are of the from 1/0/1 or 1/2".

(** The errors a call of [_get_vlans] can end in. *)
Definition get_vlans_error (e : exn) : Prop :=
  match e with
  | SwitchError _ | XMLSyntaxError | ValueError | TypeError => True
  | _ => False
  end.

Module SimDocs.

(** A trunk whose [add] element is there and has no text. *)
Definition doc_empty_add : Xml.element :=
  Xml.Element "trunk" None
    [Xml.Element (_construct_tag "allowed") None
       [Xml.Element (_construct_tag "vlan") None
          [Xml.Element (_construct_tag "add") None []]]].

(** A mode document that reports a mode the driver does not know. *)
Definition doc_mode_other : Xml.element :=
  Xml.Element "mode" None
    [Xml.Element (_construct_tag "vlan-mode") (Some "bogus") []].

(** A device whose answers are unicode texts with an XML encoding
    declaration: [etree.fromstring] refuses them with [ValueError]. *)
Definition declares_encoding (code : Z) : device :=
  fun _ _ =>
    {| status_code := code; detail := "device detail"; text := None;
       text_failure := EncodingDeclaration |}.

(** A trunk whose [native-vlan] element is there and has no text. *)
Definition doc_native_empty : Xml.element :=
  Xml.Element "trunk" None
    [Xml.Element (_construct_tag "native-vlan") None []].

End SimDocs.


(** A method that sends one request, a GET without a body to [u], whatever
    the device answers. *)
Definition reads_once {A} (u : string) (m : M A) : Prop :=
  forall dev log,
    snd (m dev log)
    = (log ++ [{| method := GET; url := u; data := None |}])%list.

(** The request of [_remove_native_vlan]. *)
Definition remove_native_vlan_request (self : Brocade) (interface : string)
  : request :=
  {| method := DELETE;
     url := _construct_url self interface "trunk/native-vlan";
     data := None |}.

(** The characters of the names [validate_port_name] lets through. *)
Definition port_char (c : ascii) : bool :=
  Re.is_digit c || Ascii.eqb c "/" || Ascii.eqb c Re.newline.

(* ================================================================= *)
(** * Part II: theorems *)
(* ================================================================= *)

(** ** The matcher against the declarative reading of a pattern *)

Local Open Scope list_scope.
Local Open Scope nat_scope.

Module ReFacts.
Import Re.

Lemma rmatch_suffix n r s s' :
  rmatch n r s s' -> exists pre, s = pre ++ s'.
Proof.
  induction 1;
    try (now exists []);
    try (now exists [c]);
    try assumption.
  all: destruct IHrmatch1 as [p1 ->]; destruct IHrmatch2 as [p2 ->];
    exists (p1 ++ p2); now rewrite app_assoc.
Qed.

Lemma rmatch_no_progress n r s s' :
  rmatch n r s s' -> length s <= length s' -> s' = s.
Proof.
  intros H L. destruct (rmatch_suffix H) as [pre ->].
  rewrite length_app in L. destruct pre; [reflexivity | simpl in L; lia].
Qed.

Lemma flat_map_all_nil {A B} (f : A -> list B) (l : list A) :
  (forall x, f x = []) -> flat_map f l = [].
Proof.
  intros H. induction l as [|x l IH]; simpl; [reflexivity|].
  now rewrite H, IH.
Qed.

Lemma star_ends_no_fuel step f s :
  length s = 0 -> star_ends step f s = [s].
Proof.
  intros L. destruct f; simpl; [reflexivity|].
  rewrite flat_map_all_nil; [reflexivity|].
  intros s'. now rewrite L.
Qed.

Lemma star_ends_fuel step f1 : forall f2 s,
  length s <= f1 -> length s <= f2 ->
  star_ends step f1 s = star_ends step f2 s.
Proof.
  induction f1 as [|f1 IH]; intros [|f2] s L1 L2.
  - reflexivity.
  - rewrite !star_ends_no_fuel; [reflexivity | lia | lia].
  - rewrite !star_ends_no_fuel; [reflexivity | lia | lia].
  - simpl. f_equal. apply flat_map_ext. intros s'.
    destruct (length s' <? length s) eqn:E; [|reflexivity].
    apply Nat.ltb_lt in E. apply IH; lia.
Qed.

Section Soundness.

Variable n : nat.
Variable r : regex.
Variable step : subject -> list subject.
Hypothesis step_sound : forall s s', In s' (step s) -> rmatch n r s s'.

Lemma star_ends_sound fuel : forall s s',
  In s' (star_ends step fuel s) -> rmatch n (Star r) s s'.
Proof.
  induction fuel as [|fuel IH]; intros s s'; simpl.
  - intros [<-|[]]. constructor.
  - rewrite in_app_iff, in_flat_map. intros [[s1 [H1 H2]]|[<-|[]]].
    + destruct (length s1 <? length s); [|destruct H2].
      eapply rm_star_cons; [apply step_sound; eassumption | now apply IH].
    + constructor.
Qed.

End Soundness.

Lemma ends_sound n r : forall s s', In s' (ends n r s) -> rmatch n r s s'.
Proof.
  induction r as [| | |a|r1 IH1 r2 IH2|r1 IH1|r1 IH1|r1 IH1]; intros s s'; simpl.
  - destruct (length s =? n) eqn:E; [|intros []].
    apply Nat.eqb_eq in E. intros [<-|[]]. now constructor.
  - destruct s as [|c [|d s]].
    + intros [<-|[]]. constructor.
    + destruct (Ascii.eqb c newline) eqn:E; [|intros []].
      apply Ascii.eqb_eq in E. subst c. intros [<-|[]]. constructor.
    + intros [].
  - destruct s as [|c s]; [intros []|].
    destruct (is_digit c) eqn:E; [|intros []].
    intros [<-|[]]. now constructor.
  - destruct s as [|c s]; [intros []|].
    destruct (Ascii.eqb c a) eqn:E; [|intros []].
    apply Ascii.eqb_eq in E. subst c. intros [<-|[]]. constructor.
  - rewrite in_flat_map. intros [s1 [H1 H2]].
    eapply rm_seq; [apply IH1 | apply IH2]; eassumption.
  - rewrite in_app_iff. intros [H|[<-|[]]].
    + apply rm_opt_some. now apply IH1.
    + apply rm_opt_none.
  - apply star_ends_sound. exact IH1.
  - rewrite in_flat_map. intros [s1 [H1 H2]].
    eapply rm_plus; [apply IH1; eassumption|].
    eapply star_ends_sound; [exact IH1 | eassumption].
Qed.

Lemma star_ends_step n r s s1 s2 :
  In s1 (ends n r s) -> length s1 < length s ->
  In s2 (star_ends (ends n r) (length s1) s1) ->
  In s2 (star_ends (ends n r) (length s) s).
Proof.
  intros H1 L H2. destruct (length s) as [|f] eqn:E; [lia|].
  simpl. rewrite in_app_iff, in_flat_map. left. exists s1. split; [assumption|].
  rewrite E. replace (length s1 <? S f) with true
    by (symmetry; apply Nat.ltb_lt; lia).
  rewrite (@star_ends_fuel _ f (length s1)); [assumption | lia | lia].
Qed.

Lemma star_ends_self step fuel s : In s (star_ends step fuel s).
Proof.
  destruct fuel; simpl; [now left|]. rewrite in_app_iff. right. now left.
Qed.

Lemma ends_complete n r s s' : rmatch n r s s' -> In s' (ends n r s).
Proof.
  induction 1; simpl.
  - replace (length s =? n) with true by (symmetry; now apply Nat.eqb_eq).
    now left.
  - now left.
  - now left.
  - rewrite H. now left.
  - rewrite Ascii.eqb_refl. now left.
  - rewrite in_flat_map. eauto.
  - rewrite in_app_iff. now left.
  - rewrite in_app_iff. right. now left.
  - apply star_ends_self.
  - destruct (Nat.lt_ge_cases (length s1) (length s)) as [L|L].
    + eapply star_ends_step; eassumption.
    + rewrite (rmatch_no_progress H L) in IHrmatch2. exact IHrmatch2.
  - rewrite in_flat_map. exists s1. split; assumption.
Qed.

Lemma ends_spec n r s s' : In s' (ends n r s) <-> rmatch n r s s'.
Proof. split; [apply ends_sound | apply ends_complete]. Qed.

End ReFacts.

(** ** Splitting on a separator *)

Module SplitFacts.
Import Common.

Lemma split_on_piece sep : forall a cur,
  ~ In sep a -> split_on sep cur a = [rev cur ++ a].
Proof.
  induction a as [|c a IH]; intros cur Hn; simpl.
  - now rewrite app_nil_r.
  - destruct (Ascii.eqb c sep) eqn:E.
    + apply Ascii.eqb_eq in E. subst c. exfalso. apply Hn. now left.
    + rewrite IH by (intros H; apply Hn; now right).
      simpl. now rewrite <- app_assoc.
Qed.

Lemma split_on_app sep : forall a cur rest,
  ~ In sep a ->
  split_on sep cur (a ++ sep :: rest) = (rev cur ++ a) :: split_on sep [] rest.
Proof.
  induction a as [|c a IH]; intros cur rest Hn; simpl.
  - rewrite Ascii.eqb_refl. now rewrite app_nil_r.
  - destruct (Ascii.eqb c sep) eqn:E.
    + apply Ascii.eqb_eq in E. subst c. exfalso. apply Hn. now left.
    + rewrite IH by (intros H; apply Hn; now right).
      simpl. now rewrite <- app_assoc.
Qed.

Lemma split_on_cases sep : forall l cur,
  (~ In sep l /\ split_on sep cur l = [rev cur ++ l]) \/
  (exists a rest, l = a ++ sep :: rest /\ ~ In sep a /\
     split_on sep cur l = (rev cur ++ a) :: split_on sep [] rest).
Proof.
  intros l cur. assert (D : (~ In sep l) \/
    exists a rest, l = a ++ sep :: rest /\ ~ In sep a).
  { clear cur. induction l as [|c l IH].
    - left. intros [].
    - destruct (Ascii.eqb c sep) eqn:E.
      + apply Ascii.eqb_eq in E. subst c. right. exists [], l.
        split; [reflexivity | intros []].
      + apply Ascii.eqb_neq in E. destruct IH as [IH|[a [rest [-> Hn]]]].
        * left. intros [H|H]; [now apply E | now apply IH].
        * right. exists (c :: a), rest. split; [reflexivity|].
          intros [H|H]; [now apply E | now apply Hn]. }
  destruct D as [Hn|[a [rest [-> Hn]]]].
  - left. split; [assumption | now apply split_on_piece].
  - right. exists a, rest. repeat split; try assumption.
    now apply split_on_app.
Qed.

Lemma split_on_nonempty sep l cur : split_on sep cur l <> [].
Proof.
  destruct (split_on_cases sep l cur) as [[_ ->]|[a [rest [_ [_ ->]]]]];
    discriminate.
Qed.

End SplitFacts.

(** ** Port names *)

Module PortNameFacts.
Import Re ReFacts Shape.

Lemma digits_no_sep ds sep :
  forallb is_digit ds = true -> is_digit sep = false -> ~ In sep ds.
Proof.
  intros H Hs Hin. rewrite forallb_forall in H. apply H in Hin. congruence.
Qed.

Lemma segment_digits ds : is_segment ds = true -> forallb is_digit ds = true.
Proof. destruct ds; [discriminate | trivial]. Qed.

Lemma segment_no_sep ds sep :
  is_segment ds = true -> is_digit sep = false -> ~ In sep ds.
Proof. intros H. apply digits_no_sep. now apply segment_digits. Qed.

Lemma rmatch_star_digit n s s' :
  rmatch n (Star Digit) s s' ->
  exists ds, forallb is_digit ds = true /\ s = ds ++ s'.
Proof.
  intros H. remember (Star Digit) as r eqn:Er.
  induction H; inversion Er; subst.
  - now exists [].
  - inversion H; subst. destruct (IHrmatch2 eq_refl) as [ds [Hd ->]].
    exists (c :: ds). split; [simpl; apply andb_true_iff; auto | reflexivity].
Qed.

Lemma star_digit_rmatch n ds s' :
  forallb is_digit ds = true -> rmatch n (Star Digit) (ds ++ s') s'.
Proof.
  induction ds as [|c ds IH]; simpl; intros H.
  - constructor.
  - apply andb_true_iff in H. destruct H as [Hc Hd].
    eapply rm_star_cons; [now constructor | now apply IH].
Qed.

Lemma rmatch_plus_digit n s s' :
  rmatch n (Plus Digit) s s' <->
  exists ds, is_segment ds = true /\ s = ds ++ s'.
Proof.
  split.
  - intros H. inversion H as [| | | | | | | | | |? ? ? ? Hc Hs]; subst.
    inversion Hc; subst.
    destruct (rmatch_star_digit Hs) as [ds [Hd ->]].
    exists (c :: ds). split; [simpl; apply andb_true_iff; auto | reflexivity].
  - intros [[|c ds] [Hd ->]]; [discriminate|].
    simpl in Hd. apply andb_true_iff in Hd. destruct Hd as [Hc Hd].
    eapply rm_plus; [now constructor | now apply star_digit_rmatch].
Qed.

(** What [port_name_re] matches from the start of a subject: two or three
    segments, then the end of the subject or its final newline. *)
Lemma rmatch_port_name_re s s' :
  rmatch (length s) port_name_re s s' <->
  (s' = [] \/ s' = [newline]) /\
  ((exists a b, is_segment a = true /\ is_segment b = true /\
       s = a ++ "/"%char :: b ++ s') \/
   (exists a b c, is_segment a = true /\ is_segment b = true /\
       is_segment c = true /\ s = a ++ "/"%char :: b ++ "/"%char :: c ++ s')).
Proof.
  unfold port_name_re. split.
  - intros H.
    inversion H as [| | | | |? ? ? ? ? Hb H1| | | | |]; subst; clear H.
    inversion Hb; subst; clear Hb.
    inversion H1 as [| | | | |? ? ? ? ? Ha H2| | | | |]; subst; clear H1.
    apply rmatch_plus_digit in Ha. destruct Ha as [a [Sa ->]].
    inversion H2 as [| | | | |? ? ? ? ? Hl H3| | | | |]; subst; clear H2.
    inversion Hl; subst; clear Hl.
    inversion H3 as [| | | | |? ? ? ? ? Hb H4| | | | |]; subst; clear H3.
    apply rmatch_plus_digit in Hb. destruct Hb as [b [Sb ->]].
    inversion H4 as [| | | | |? ? ? ? ? Ho He| | | | |]; subst; clear H4.
    assert (T : s' = [] \/ s' = [newline]) by (inversion He; subst; tauto).
    assert (E : s1 = s') by (inversion He; subst; reflexivity).
    subst s1. split; [exact T|].
    inversion Ho as [| | | | | |? ? ? Hs| | | |]; subst; clear Ho.
    + inversion Hs as [| | | | |? ? ? ? ? Hl Hc| | | | |]; subst; clear Hs.
      inversion Hl; subst; clear Hl.
      apply rmatch_plus_digit in Hc. destruct Hc as [c [Sc ->]].
      right. exists a, b, c. auto.
    + left. exists a, b. auto.
  - intros [T [[a [b [Sa [Sb ->]]]]|[a [b [c [Sa [Sb [Sc ->]]]]]]]].
    + eapply rm_seq; [now constructor|].
      eapply rm_seq; [apply rmatch_plus_digit; eauto|].
      eapply rm_seq; [constructor|].
      eapply rm_seq; [apply rmatch_plus_digit; eauto|].
      eapply rm_seq; [apply rm_opt_none|].
      destruct T as [->| ->]; constructor.
    + eapply rm_seq; [now constructor|].
      eapply rm_seq; [apply rmatch_plus_digit; eauto|].
      eapply rm_seq; [constructor|].
      eapply rm_seq; [apply rmatch_plus_digit; eauto|].
      eapply rm_seq.
      * apply rm_opt_some. eapply rm_seq; [constructor|].
        apply rmatch_plus_digit; eauto.
      * destruct T as [->| ->]; constructor.
Qed.

End PortNameFacts.

Module PortNameTheorems.
Import Re ReFacts Shape Common SplitFacts PortNameFacts.

Lemma list_ascii_of_string_app (a b : string) :
  list_ascii_of_string (a ++ b)%string =
  list_ascii_of_string a ++ list_ascii_of_string b.
Proof. induction a as [|c a IH]; simpl; [reflexivity | now rewrite IH]. Qed.

Lemma string_of_list_ascii_app (a b : list ascii) :
  string_of_list_ascii (a ++ b) =
  (string_of_list_ascii a ++ string_of_list_ascii b)%string.
Proof. induction a as [|c a IH]; simpl; [reflexivity | now rewrite IH]. Qed.

(** [port_form] spelled out on the characters of the name. *)
Lemma port_form_iff port :
  port_form port = true <->
  (exists a b, is_segment a = true /\ is_segment b = true /\
     list_ascii_of_string port = a ++ "/"%char :: b) \/
  (exists a b c, is_segment a = true /\ is_segment b = true /\
     is_segment c = true /\
     list_ascii_of_string port = a ++ "/"%char :: b ++ "/"%char :: c).
Proof.
  unfold port_form. generalize (list_ascii_of_string port) as l. intros l.
  split.
  - intros H. apply andb_true_iff in H. destruct H as [HL HS].
    destruct (split_on_cases "/"%char l []) as [[_ E]|[a [r1 [-> [_ E]]]]];
      rewrite E in HL, HS; [discriminate|].
    destruct (split_on_cases "/"%char r1 []) as [[_ E1]|[b [r2 [-> [_ E1]]]]];
      rewrite E1 in HL, HS; simpl in HS.
    { left. exists a, r1. rewrite !andb_true_iff in HS. tauto. }
    destruct (split_on_cases "/"%char r2 []) as [[_ E2]|[c [r3 [-> [_ E2]]]]];
      rewrite E2 in HL, HS; simpl in HS.
    { right. exists a, b, r2. rewrite !andb_true_iff in HS. tauto. }
    exfalso. simpl in HL.
    destruct (split_on "/"%char [] r3) eqn:E3; [|discriminate].
    now apply split_on_nonempty in E3.
  - intros [[a [b [Sa [Sb ->]]]]|[a [b [c [Sa [Sb [Sc ->]]]]]]].
    + rewrite split_on_app by (apply segment_no_sep; auto).
      rewrite split_on_piece by (apply segment_no_sep; auto).
      simpl. now rewrite Sa, Sb.
    + rewrite split_on_app by (apply segment_no_sep; auto).
      rewrite split_on_app by (apply segment_no_sep; auto).
      rewrite split_on_piece by (apply segment_no_sep; auto).
      simpl. now rewrite Sa, Sb, Sc.
Qed.

Lemma validate_port_name_matches port :
  validate_port_name port = Ok tt <->
  exists s', rmatch (length (list_ascii_of_string port)) port_name_re
               (list_ascii_of_string port) s'.
Proof.
  unfold validate_port_name, re_match.
  destruct (ends _ port_name_re _) as [|rest tl] eqn:E.
  - split; [discriminate|]. intros [s' H].
    apply ends_complete in H. rewrite E in H. destruct H.
  - split; [|reflexivity]. intros _. exists rest.
    apply ends_sound. rewrite E. now left.
Qed.

(** The names the validator accepts: the port names of the docstring, and
    those names followed by one newline. *)
Theorem validate_port_name_accepts port :
  validate_port_name port = Ok tt <->
  port_form port = true \/
  exists q, port_form q = true /\
            port = (q ++ String newline EmptyString)%string.
Proof.
  rewrite validate_port_name_matches. split.
  - intros [s' H]. apply rmatch_port_name_re in H.
    destruct H as [[->| ->] H].
    + left. apply port_form_iff.
      destruct H as [[a [b [Sa [Sb E]]]]|[a [b [c [Sa [Sb [Sc E]]]]]]];
        rewrite ?app_nil_r in E; [left | right]; eauto 8.
    + right.
      destruct H as [[a [b [Sa [Sb E]]]]|[a [b [c [Sa [Sb [Sc E]]]]]]].
      * exists (string_of_list_ascii (a ++ "/"%char :: b)). split.
        -- apply port_form_iff. left. exists a, b.
           now rewrite list_ascii_of_string_of_list_ascii.
        -- rewrite <- (string_of_list_ascii_of_string port), E.
           change (String newline EmptyString)
             with (string_of_list_ascii [newline]).
           rewrite <- string_of_list_ascii_app. f_equal.
           now rewrite <- app_assoc.
      * exists (string_of_list_ascii (a ++ "/"%char :: b ++ "/"%char :: c)).
        split.
        -- apply port_form_iff. right. exists a, b, c.
           now rewrite list_ascii_of_string_of_list_ascii.
        -- rewrite <- (string_of_list_ascii_of_string port), E.
           change (String newline EmptyString)
             with (string_of_list_ascii [newline]).
           rewrite <- string_of_list_ascii_app. f_equal.
           rewrite <- app_assoc. simpl. now rewrite <- app_assoc.
  - intros [H|[q [H ->]]]; apply port_form_iff in H.
    + exists []. apply rmatch_port_name_re. split; [now left|].
      destruct H as [[a [b [Sa [Sb E]]]]|[a [b [c [Sa [Sb [Sc E]]]]]]];
        rewrite E; [left; exists a, b | right; exists a, b, c];
        rewrite app_nil_r; auto.
    + exists [newline]. apply rmatch_port_name_re. split; [now right|].
      rewrite list_ascii_of_string_app. simpl.
      destruct H as [[a [b [Sa [Sb E]]]]|[a [b [c [Sa [Sb [Sc E]]]]]]];
        rewrite E; [left; exists a, b | right; exists a, b, c];
        repeat split; auto; rewrite <- app_assoc; simpl; try reflexivity.
      now rewrite <- app_assoc.
Qed.

(** Every other name is refused with [BadArgumentError]. *)
Theorem validate_port_name_refuses port :
  validate_port_name port <> Ok tt ->
  exists msg, validate_port_name port = Raise (BadArgumentError msg).
Proof.
  unfold validate_port_name. destruct (re_match _ _).
  - intros H. now destruct H.
  - intros _. eauto.
Qed.

End PortNameTheorems.

(** ** The order in which the matcher finds its matches *)

Module ReOrderFacts.
Import Re ReFacts Shape.

Lemma leads_seq n r1 r2 s x y :
  leads n r1 s x -> leads n r2 x y -> leads n (Seq r1 r2) s y.
Proof.
  intros [t1 E1] [t2 E2]. unfold leads. simpl.
  rewrite E1. simpl. rewrite E2. simpl. eauto.
Qed.

Lemma leads_opt n r s x : leads n r s x -> leads n (Opt r) s x.
Proof. intros [t E]. unfold leads. simpl. rewrite E. simpl. eauto. Qed.

Lemma opt_skip n r s : ends n r s = [] -> leads n (Opt r) s s.
Proof. intros E. unfold leads. simpl. rewrite E. simpl. eauto. Qed.

Lemma star_skip n r s : ends n r s = [] -> leads n (Star r) s s.
Proof.
  intros E. unfold leads. simpl.
  destruct (length s); simpl; [|rewrite E]; simpl; eauto.
Qed.

Lemma leads_star n r s x y :
  leads n r s x -> length x < length s ->
  leads n (Star r) x y -> leads n (Star r) s y.
Proof.
  intros [t1 E1] L [t2 E2]. unfold leads. simpl in *.
  destruct (length s) as [|f] eqn:Ls; [lia|].
  simpl. rewrite E1. simpl. rewrite Ls.
  replace (length x <? S f) with true by (symmetry; apply Nat.ltb_lt; lia).
  rewrite (@star_ends_fuel _ f (length x)) by lia.
  rewrite E2. simpl. eauto.
Qed.

Lemma leads_plus n r s x y :
  leads n r s x -> leads n (Star r) x y -> leads n (Plus r) s y.
Proof.
  intros [t1 E1] [t2 E2]. unfold leads. simpl in *.
  rewrite E1. simpl. rewrite E2. simpl. eauto.
Qed.

Lemma leads_lit n c s : leads n (Lit c) (c :: s) s.
Proof. unfold leads. simpl. rewrite Ascii.eqb_refl. eauto. Qed.

Lemma leads_digit n c s : is_digit c = true -> leads n Digit (c :: s) s.
Proof. intros H. unfold leads. simpl. rewrite H. eauto. Qed.

Lemma digit_fails n s : starts_digit s = false -> ends n Digit s = [].
Proof. destruct s as [|c s]; simpl; [reflexivity | now intros ->]. Qed.

Lemma plus_digit_fails n s :
  starts_digit s = false -> ends n (Plus Digit) s = [].
Proof.
  intros H. change (ends n (Plus Digit) s)
    with (flat_map (fun s' => star_ends (ends n Digit) (length s') s')
                   (ends n Digit s)).
  now rewrite digit_fails.
Qed.

Lemma sep_fails n sep r s :
  starts_sep sep s = false ->
  ends n (Seq (Lit sep) (Seq (Plus Digit) r)) s = [] /\
  ends n (Seq (Lit sep) (Plus Digit)) s = [].
Proof.
  intros H. destruct s as [|c s]; [split; reflexivity|].
  simpl in H. cbn [ends]. destruct (Ascii.eqb c sep); [|split; reflexivity].
  simpl in H. cbn [flat_map]. rewrite !app_nil_r.
  fold (ends n (Plus Digit) s). rewrite plus_digit_fails by assumption.
  split; reflexivity.
Qed.

Lemma digits_lead n : forall ds rest,
  forallb is_digit ds = true -> starts_digit rest = false ->
  leads n (Star Digit) (ds ++ rest) rest.
Proof.
  induction ds as [|c ds IH]; intros rest Hd Hr; simpl.
  - apply star_skip. now apply digit_fails.
  - simpl in Hd. apply andb_true_iff in Hd. destruct Hd as [Hc Hd].
    eapply leads_star; [now apply leads_digit | simpl; lia | now apply IH].
Qed.

Lemma segment_lead n ds rest :
  is_segment ds = true -> starts_digit rest = false ->
  leads n (Plus Digit) (ds ++ rest) rest.
Proof.
  destruct ds as [|c ds]; [discriminate|]. simpl. intros Hd Hr.
  apply andb_true_iff in Hd. destruct Hd as [Hc Hd].
  eapply leads_plus; [now apply leads_digit | now apply digits_lead].
Qed.

End ReOrderFacts.

(** ** The VLAN list pattern *)

Module VlanPatternFacts.
Import Re ReFacts Shape ReOrderFacts.

Lemma token_lead n t rest :
  token_ok t = true -> token_stops t rest = true ->
  leads n vlan_token_re (token_text t ++ rest) rest.
Proof.
  unfold token_stops, vlan_token_re. intros Hok Hs.
  apply andb_true_iff in Hs. destruct Hs as [Hd Hm].
  apply negb_true_iff in Hd.
  destruct t as [v|lo hi]; simpl in *.
  - apply negb_true_iff in Hm.
    eapply leads_seq; [now apply segment_lead|].
    apply opt_skip. apply (@sep_fails n "-"%char Digit rest Hm).
  - apply andb_true_iff in Hok. destruct Hok as [Hlo Hhi].
    rewrite <- app_assoc. simpl.
    eapply leads_seq; [now apply segment_lead|].
    apply leads_opt.
    eapply leads_seq; [apply leads_lit | now apply segment_lead].
Qed.

Lemma token_stops_comma t s : token_stops t (","%char :: s) = true.
Proof. destruct t; reflexivity. Qed.

Lemma more_tokens_lead n : forall ts t post,
  forallb token_ok ts = true -> stops_after t ts post = true ->
  leads n (Star (Seq (Lit ","%char) vlan_token_re))
        (flat_map (fun u => ","%char :: token_text u) ts ++ post) post.
Proof.
  induction ts as [|u ts IH]; intros t post Hok Hs; simpl in *.
  - apply andb_true_iff in Hs. destruct Hs as [_ Hc].
    apply negb_true_iff in Hc.
    apply star_skip. unfold vlan_token_re.
    apply (@sep_fails n ","%char _ post Hc).
  - apply andb_true_iff in Hok. destruct Hok as [Hu Hts].
    rewrite <- app_assoc.
    eapply leads_star; [| | now apply (IH u)].
    + eapply leads_seq; [apply leads_lit|].
      apply token_lead; [assumption|].
      destruct ts as [|w ts]; simpl in *.
      * apply andb_true_iff in Hs. tauto.
      * apply token_stops_comma.
    + simpl. rewrite !length_app. lia.
Qed.

Lemma stops_after_first t ts post :
  stops_after t ts post = true ->
  token_stops t (flat_map (fun u => ","%char :: token_text u) ts ++ post)
  = true.
Proof.
  destruct ts as [|u ts]; simpl.
  - intros H. apply andb_true_iff in H. tauto.
  - intros _. apply token_stops_comma.
Qed.

(** The matcher reads a whole list and stops where the list stops. *)
Lemma list_lead n t ts post :
  token_ok t = true -> forallb token_ok ts = true ->
  stops_after t ts post = true ->
  leads n vlan_list_re (render t ts ++ post) post.
Proof.
  intros Ht Hts Hs. unfold vlan_list_re, render. rewrite <- app_assoc.
  eapply leads_seq.
  - apply token_lead; [assumption | now apply stops_after_first].
  - now apply (more_tokens_lead n ts t).
Qed.

Lemma list_fails n s : starts_digit s = false -> ends n vlan_list_re s = [].
Proof.
  intros H. unfold vlan_list_re, vlan_token_re.
  change (ends n (Seq (Seq (Plus Digit) ?o) ?r) s)
    with (flat_map (ends n r) (flat_map (ends n o) (ends n (Plus Digit) s))).
  now rewrite plus_digit_fails.
Qed.

Lemma search_from_next r n c s :
  ends n r (c :: s) = [] -> search_from r n (c :: s) = search_from r n s.
Proof. intros E. simpl. now rewrite E. Qed.

Lemma search_skip n : forall pre s,
  no_digit pre = true ->
  search_from vlan_list_re n (pre ++ s) = search_from vlan_list_re n s.
Proof.
  induction pre as [|c pre IH]; intros s H; [reflexivity|].
  unfold no_digit in H. cbn [forallb] in H.
  apply andb_true_iff in H. destruct H as [Hc Hp].
  apply negb_true_iff in Hc.
  rewrite <- app_comm_cons, search_from_next.
  - now apply IH.
  - apply list_fails. exact Hc.
Qed.

Lemma search_none n l :
  no_digit l = true -> search_from vlan_list_re n l = None.
Proof.
  intros H. rewrite <- (app_nil_r l), search_skip by assumption.
  reflexivity.
Qed.

Lemma consumed_app (m post : subject) :
  consumed (m ++ post) post = string_of_list_ascii m.
Proof.
  unfold consumed. rewrite length_app.
  replace (length m + length post - length post) with (length m) by lia.
  now rewrite firstn_app, Nat.sub_diag, firstn_all, app_nil_r.
Qed.

Lemma search_from_hit r n s x tl :
  ends n r s = x :: tl -> search_from r n s = Some {| group := consumed s x |}.
Proof. intros E. destruct s; simpl; now rewrite E. Qed.

Lemma search_found n r m post :
  leads n r (m ++ post) post ->
  search_from r n (m ++ post)
  = Some {| group := string_of_list_ascii m |}.
Proof.
  intros [tl E]. rewrite (search_from_hit _ _ _ E). now rewrite consumed_app.
Qed.

(** Reading a text from the left: what is before the first digit, the list
    that starts there, and what follows it. *)
Lemma span_digits : forall s,
  exists ds rest, s = ds ++ rest /\ forallb is_digit ds = true /\
                  starts_digit rest = false.
Proof.
  induction s as [|c s [ds [rest [-> [Hd Hr]]]]].
  - now exists [], [].
  - destruct (is_digit c) eqn:E.
    + exists (c :: ds), rest. simpl. now rewrite E.
    + exists [], (c :: ds ++ rest). auto.
Qed.

Lemma span_no_digit : forall s,
  exists pre rest, s = pre ++ rest /\ no_digit pre = true /\
                   (rest = [] \/ starts_digit rest = true).
Proof.
  induction s as [|c s [pre [rest [-> [Hp Hr]]]]].
  - exists [], []. auto.
  - destruct (is_digit c) eqn:E.
    + exists [], (c :: pre ++ rest). simpl. auto.
    + exists (c :: pre), rest. simpl. now rewrite E.
Qed.

Lemma read_segment s :
  starts_digit s = true ->
  exists ds rest, s = ds ++ rest /\ is_segment ds = true /\
                  starts_digit rest = false.
Proof.
  destruct s as [|c s]; [discriminate|]. simpl. intros Hc.
  destruct (span_digits s) as [ds [rest [-> [Hd Hr]]]].
  exists (c :: ds), rest. simpl. now rewrite Hc.
Qed.

Lemma read_token s :
  starts_digit s = true ->
  exists t rest, s = token_text t ++ rest /\ token_ok t = true /\
                 token_stops t rest = true.
Proof.
  intros H. destruct (read_segment s H) as [lo [r1 [-> [Hlo Hr1]]]].
  destruct (starts_sep "-"%char r1) eqn:E.
  - destruct r1 as [|c r1]; [discriminate|]. simpl in E.
    apply andb_true_iff in E. destruct E as [Ec Ed].
    apply Ascii.eqb_eq in Ec. subst c.
    destruct (read_segment r1 Ed) as [hi [r2 [-> [Hhi Hr2]]]].
    exists (Range lo hi), r2. simpl. rewrite <- app_assoc. simpl.
    unfold token_stops. now rewrite Hlo, Hhi, Hr2.
  - exists (Single lo), r1. unfold token_stops. simpl.
    now rewrite Hlo, Hr1, E.
Qed.

Lemma token_text_nonempty t : token_ok t = true -> token_text t <> [].
Proof.
  destruct t as [[|c v]|[|c lo] hi]; simpl; try discriminate.
Qed.

Lemma read_list_bounded k : forall s,
  length s <= k -> starts_digit s = true ->
  exists t ts post, s = render t ts ++ post /\ token_ok t = true /\
    forallb token_ok ts = true /\ stops_after t ts post = true.
Proof.
  induction k as [|k IH]; intros s L H.
  - destruct s; [discriminate | simpl in L; lia].
  - destruct (read_token s H) as [t [rest [-> [Ht Hs]]]].
    destruct (starts_sep ","%char rest) eqn:E.
    + destruct rest as [|c rest]; [discriminate|]. simpl in E.
      apply andb_true_iff in E. destruct E as [Ec Ed].
      apply Ascii.eqb_eq in Ec. subst c.
      destruct (IH rest) as [u [us [post [-> [Hu [Hus Hp]]]]]]; [|assumption|].
      { pose proof (token_text_nonempty t Ht) as Hn.
        rewrite length_app in L. simpl in L.
        destruct (token_text t); [congruence | simpl in L; lia]. }
      exists t, (u :: us), post. unfold render. simpl.
      rewrite Hu, Hus. repeat split; auto.
      rewrite <- (app_assoc (token_text t)). reflexivity.
    + exists t, [], rest. unfold render. simpl.
      rewrite app_nil_r, Hs, E. auto.
Qed.

Lemma read_list s :
  starts_digit s = true ->
  exists t ts post, s = render t ts ++ post /\ token_ok t = true /\
    forallb token_ok ts = true /\ stops_after t ts post = true.
Proof. apply (@read_list_bounded (length s)). lia. Qed.

End VlanPatternFacts.

(** ** Expanding the tokens *)

Module ParseVlansFacts.
Import Re Shape Common SplitFacts PortNameFacts.

Lemma int_digits_value : forall ds acc,
  forallb is_digit ds = true ->
  int_digits acc ds
  = Some (fold_left (fun a c => (10 * a + digit_value c)%N) ds acc).
Proof.
  induction ds as [|c ds IH]; intros acc H; simpl in *; [reflexivity|].
  apply andb_true_iff in H. destruct H as [Hc Hd].
  rewrite Hc. now apply IH.
Qed.

Lemma int_of_segment ds :
  is_segment ds = true -> int_of ds = Some (value ds).
Proof.
  intros H. pose proof (segment_digits ds H) as Hd.
  destruct ds as [|c ds]; [discriminate|].
  unfold int_of, value. now apply int_digits_value.
Qed.

Lemma cut_at_none sep : forall l, ~ In sep l -> cut_at sep l = None.
Proof.
  induction l as [|c l IH]; intros Hn; simpl; [reflexivity|].
  destruct (Ascii.eqb c sep) eqn:E.
  - apply Ascii.eqb_eq in E. subst c. exfalso. apply Hn. now left.
  - rewrite IH; [reflexivity|]. intros H. apply Hn. now right.
Qed.

Lemma cut_at_app sep : forall a b,
  ~ In sep a -> cut_at sep (a ++ sep :: b) = Some (a, b).
Proof.
  induction a as [|c a IH]; intros b Hn; simpl.
  - now rewrite Ascii.eqb_refl.
  - destruct (Ascii.eqb c sep) eqn:E.
    + apply Ascii.eqb_eq in E. subst c. exfalso. apply Hn. now left.
    + rewrite IH; [reflexivity|]. intros H. apply Hn. now right.
Qed.

Lemma expand_token_ok t :
  token_ok t = true -> expand_token (token_text t) = Ok (token_values t).
Proof.
  destruct t as [v|lo hi]; simpl; intros H; unfold expand_token.
  - rewrite cut_at_none by (now apply segment_no_sep).
    now rewrite int_of_segment.
  - apply andb_true_iff in H. destruct H as [Hlo Hhi].
    rewrite cut_at_app by (now apply segment_no_sep).
    now rewrite !int_of_segment.
Qed.

Lemma token_text_no_comma t :
  token_ok t = true -> ~ In ","%char (token_text t).
Proof.
  destruct t as [v|lo hi]; simpl; intros H.
  - now apply segment_no_sep.
  - apply andb_true_iff in H. destruct H as [Hlo Hhi].
    rewrite in_app_iff. intros [Hin|[Hin|Hin]].
    + revert Hin. now apply segment_no_sep.
    + discriminate.
    + revert Hin. now apply segment_no_sep.
Qed.

Lemma split_render : forall ts t,
  forallb token_ok (t :: ts) = true ->
  split_on ","%char [] (render t ts) = map token_text (t :: ts).
Proof.
  unfold render.
  induction ts as [|u ts IH]; intros t H; simpl in H;
    apply andb_true_iff in H; destruct H as [Ht Hts].
  - simpl. rewrite app_nil_r.
    now rewrite split_on_piece by (now apply token_text_no_comma).
  - cbn [flat_map]. rewrite <- app_comm_cons.
    rewrite split_on_app by (now apply token_text_no_comma).
    rewrite IH by exact Hts. reflexivity.
Qed.

Lemma expand_all_ok : forall ts,
  forallb token_ok ts = true ->
  expand_all (map token_text ts) = Ok (flat_map token_values ts).
Proof.
  induction ts as [|t ts IH]; simpl; intros H; [reflexivity|].
  apply andb_true_iff in H. destruct H as [Ht Hts].
  now rewrite expand_token_ok, IH.
Qed.

Lemma parse_vlans_render t ts :
  forallb token_ok (t :: ts) = true ->
  parse_vlans (string_of_list_ascii (render t ts))
  = Ok (flat_map token_values (t :: ts)).
Proof.
  intros H. unfold parse_vlans.
  rewrite list_ascii_of_string_of_list_ascii, split_render by assumption.
  now apply expand_all_ok.
Qed.

Lemma in_range_incl lo hi x :
  In x (range_incl lo hi) <-> (lo <= x <= hi)%N.
Proof.
  unfold range_incl. rewrite in_map_iff. split.
  - intros [i [<- Hi]]. apply in_seq in Hi. lia.
  - intros H. exists (N.to_nat (x - lo)). split; [lia|].
    apply in_seq. lia.
Qed.

Lemma in_token_values t x : In x (token_values t) <-> denotes t x.
Proof.
  destruct t as [v|lo hi]; simpl.
  - split; [intros [<-|[]]; reflexivity | intros ->; now left].
  - apply in_range_incl.
Qed.

End ParseVlansFacts.

(** ** The VLAN-range codec *)

Module VlanCodecFacts.
Import Re Shape Common VlanPatternFacts ParseVlansFacts.

(** The pairs [_get_vlans] returns for a list of VLAN numbers. *)
Lemma vlans_of_text_no_digit text dev log :
  no_digit (list_ascii_of_string text) = true ->
  vlans_of_text (Some text) dev log = (Ok [], log).
Proof.
  intros H. unfold vlans_of_text, py_re_search, bind, ret, re_search.
  now rewrite search_none.
Qed.

Lemma vlans_of_text_list text dev log pre t ts post :
  list_ascii_of_string text = pre ++ render t ts ++ post ->
  no_digit pre = true ->
  forallb token_ok (t :: ts) = true ->
  stops_after t ts post = true ->
  vlans_of_text (Some text) dev log
  = (Ok (map (fun x => (("vlan/" ++ str_of_N x)%string, x))
             (flat_map token_values (t :: ts))), log).
Proof.
  intros E Hp Hok Hs.
  unfold vlans_of_text, py_re_search, bind, ret, re_search.
  rewrite E, search_skip by assumption.
  pose proof Hok as Hok'. simpl in Hok'.
  apply andb_true_iff in Hok'. destruct Hok' as [Ht Hts].
  rewrite search_found by (now apply list_lead).
  cbn [group]. rewrite parse_vlans_render by assumption.
  reflexivity.
Qed.

Lemma text_read text :
  no_digit (list_ascii_of_string text) = true \/
  exists pre t ts post,
    list_ascii_of_string text = pre ++ render t ts ++ post /\
    no_digit pre = true /\ forallb token_ok (t :: ts) = true /\
    stops_after t ts post = true.
Proof.
  destruct (span_no_digit (list_ascii_of_string text))
    as [pre [rest [E [Hp [->|Hr]]]]].
  - left. now rewrite E, app_nil_r.
  - right. destruct (read_list rest Hr) as [t [ts [post [-> [Ht [Hts Hs]]]]]].
    exists pre, t, ts, post. simpl. rewrite Ht, Hts. auto.
Qed.

End VlanCodecFacts.

(** ** Running the driver *)

Module DriverFacts.

Lemma text_is_true x s : text_is x s = true <-> x = Some s.
Proof.
  destruct x as [t|]; simpl; [|split; discriminate].
  rewrite String.eqb_eq. split; [now intros -> | now intros [= ->]].
Qed.

Lemma text_is_false x s : text_is x s = false <-> x <> Some s.
Proof.
  rewrite <- text_is_true. destruct (text_is x s); split; congruence.
Qed.

Lemma tolerated_listed code : tolerated [code] code = true.
Proof.
  unfold tolerated, status_in. simpl. rewrite Z.eqb_refl.
  now rewrite orb_true_r.
Qed.

Lemma append_assoc (a b c : string) :
  ((a ++ b) ++ c = a ++ (b ++ c))%string.
Proof. induction a as [|x a IH]; simpl; [reflexivity | now rewrite IH]. Qed.

Lemma append_inv_head (a x y : string) :
  (a ++ x = a ++ y)%string -> x = y.
Proof.
  induction a as [|c a IH]; simpl; [trivial|]. intros [= H]. now apply IH.
Qed.

Lemma url_cancel (h c1 it c2 i q s1 s2 t : string) :
  (h ++ c1 ++ it ++ c2 ++ i ++ q ++ s1
   = (h ++ c1 ++ it ++ c2 ++ i ++ q ++ s2) ++ t)%string ->
  s1 = (s2 ++ t)%string.
Proof.
  rewrite !append_assoc. intros H.
  now repeat (apply append_inv_head in H).
Qed.

(** The two DELETE requests of the driver go to different places. *)
Lemma disable_native_tag_not_no_shutdown self interface :
  Req.disable_native_tag self interface <> Req.no_shutdown self interface.
Proof.
  intros H. apply (f_equal url) in H.
  cbv beta iota delta
    [url Req.disable_native_tag Req.no_shutdown _construct_url] in H.
  apply url_cancel in H. cbn in H. discriminate H.
Qed.

End DriverFacts.

(** Unfold one layer of driver code without touching the strings. *)
Ltac run_driver :=
  cbv beta iota zeta delta
    [bind ret raise _make_request requests_put fromstring attr_find
     attr_text try_except_AttributeError].

(** Decide the next test the driver makes on a response. *)
Ltac next_test :=
  match goal with
  | |- context [tolerated ?c ?s] => destruct (tolerated c s) eqn:?
  | |- context [match text ?r with _ => _ end] => destruct (text r) eqn:?
  | |- context [match Xml.find ?r ?t with _ => _ end] =>
      destruct (Xml.find r t) eqn:?
  | |- context [text_is ?a ?b] => destruct (text_is a b) eqn:?
  | |- context [fromstring_error ?k] =>
      destruct k eqn:?; cbv beta iota delta [fromstring_error]
  end; cbv beta iota.

Module TransportFacts.

(** A checked request whose answer is not tolerated raises [SwitchError]
    with the device's detail; what follows it in the method is not run. *)
Lemma make_request_fault_halts {A} method url data codes (k : response -> M A)
    dev log :
  tolerated codes
    (status_code
       (dev log {| method := method; url := url; data := data |})) = false ->
  (r <- _make_request method url data codes ;; k r) dev log
  = (Raise (SwitchError
              (detail
                 (dev log {| method := method; url := url; data := data |}))),
     log ++ [{| method := method; url := url; data := data |}]).
Proof. intros H. run_driver. now rewrite H. Qed.

(** A checked request whose answer is tolerated hands it to what follows. *)
Lemma make_request_ok_continues {A} method url data codes
    (k : response -> M A) dev log :
  tolerated codes
    (status_code
       (dev log {| method := method; url := url; data := data |})) = true ->
  (r <- _make_request method url data codes ;; k r) dev log
  = k (dev log {| method := method; url := url; data := data |}) dev
      (log ++ [{| method := method; url := url; data := data |}]).
Proof. intros H. run_driver. now rewrite H. Qed.

End TransportFacts.

Module DriverExamples.

Example add_vlan_on_accepting_device :
  _add_vlan_to_trunk Sim.sw "1/0/1" "100"
    (Sim.always 200 (Some Sim.doc_up)) []
  = (Ok tt,
     Req.mode_sequence Sim.sw "1/0/1" "trunk" false ++
     [Req.add_vlan Sim.sw "1/0/1" "100"]).
Proof. reflexivity. Qed.

Example set_native_vlan_tag_not_found :
  _set_native_vlan Sim.sw "1/0/1" "50"
    (Sim.scripted
       [Sim.reply 200 (Some Sim.doc_down); Sim.reply 200 None;
        Sim.reply 409 None; Sim.reply 200 None; Sim.reply 404 None]
       (Sim.reply 200 None)) []
  = (Ok tt,
     Req.mode_sequence Sim.sw "1/0/1" "trunk" true ++
     [Req.disable_native_tag Sim.sw "1/0/1";
      Req.native_vlan Sim.sw "1/0/1" "50"]).
Proof. reflexivity. Qed.

Example set_native_vlan_stops_on_fault :
  _set_native_vlan Sim.sw "1/0/1" "50"
    (Sim.scripted [Sim.reply 200 (Some Sim.doc_up); Sim.reply 500 None]
                  (Sim.reply 200 None)) []
  = (Raise (SwitchError "device detail"),
     [Req.state Sim.sw "1/0/1"; Req.switchport Sim.sw "1/0/1"]).
Proof. reflexivity. Qed.

Example get_vlans_of_trunk :
  _get_vlans Sim.sw "1/0/1" (Sim.always 200 (Some Sim.doc_trunk)) []
  = (Ok [("vlan/12", 12%N); ("vlan/14", 14%N); ("vlan/15", 15%N);
         ("vlan/16", 16%N); ("vlan/17", 17%N); ("vlan/18", 18%N)],
     [Req.trunk Sim.sw "1/0/1"]).
Proof. reflexivity. Qed.

Example get_native_vlan_of_trunk :
  _get_native_vlan Sim.sw "1/0/1" (Sim.always 200 (Some Sim.doc_trunk)) []
  = (Ok (Some ("vlan/native", Some "50")), [Req.trunk Sim.sw "1/0/1"]).
Proof. reflexivity. Qed.

Example construct_url_of_port :
  _construct_url Sim.sw "101/0/10" "trunk/allowed/vlan"
  = "http://switch/rest/config/running/interface/TenGigabitEthernet/%22101/0/10%22/switchport/trunk/allowed/vlan".
Proof. reflexivity. Qed.

Example port_names :
  validate_port_name "1/0/1" = Ok tt /\
  validate_port_name "1/2" = Ok tt /\
  (forall p, In p [""; "1"; "1/2/3/4"; "a/1"; "1/b"; "/1/2"; "1/2/"; "1//2"] ->
             validate_port_name p <> Ok tt).
Proof.
  repeat split.
  intros p H. simpl in H.
  repeat (destruct H as [<-|H]; [discriminate|]). destruct H.
Qed.

End DriverExamples.

Module ReaderTheorems.
Import DriverFacts.

Lemma is_interface_off_read self interface dev log root :
  tolerated [] (status_code (dev log (Req.state self interface))) = true ->
  text (dev log (Req.state self interface)) = Some root ->
  _is_interface_off self interface dev log
  = (match Xml.find root (_construct_tag "shutdown") with
     | None => Ok false
     | Some sd =>
         if text_is (Xml.text sd) "true" then Ok true
         else Raise (SwitchError "Could not determine if interface is off")
     end, log ++ [Req.state self interface]).
Proof.
  intros Hs Ht. unfold _is_interface_off, Req.state in *. run_driver.
  rewrite Hs, Ht. cbv beta iota.
  destruct (Xml.find root _) as [sd|]; [|reflexivity].
  destruct (text_is _ _); reflexivity.
Qed.

End ReaderTheorems.

Module ModeFacts.
Import DriverFacts.

Ltac close_leaf :=
  eexists; split; [cbn [snd]; rewrite <- ?app_assoc; reflexivity|];
  cbn [fst];
  first
    [ left; (exists true + exists false);
      repeat split; solve [reflexivity | assumption]
    | right; left; (exists true + exists false);
      repeat split; solve [reflexivity | assumption]
    | right; right; (exists true + exists false); eexists;
      split; [reflexivity|]; split; [exact I|]; split; [discriminate|];
      split; [unfold beginning, Req.mode_sequence; cbn [app];
              eexists; reflexivity|];
      first [ intros; congruence
            | intros _; unfold beginning, Req.enable_sequence; cbn [app];
              eexists; reflexivity ] ].

(** Every way a call of [_enable_and_set_mode] can go. *)
Lemma enable_and_set_mode_outcomes self interface mode dev log :
  exists tr,
    snd (_enable_and_set_mode self interface mode dev log) = log ++ tr /\
    ((exists off,
        tr = Req.mode_sequence self interface mode off /\
        mode_is_valid mode = true /\
        fst (_enable_and_set_mode self interface mode dev log) = Ok tt) \/
     (exists off,
        tr = Req.enable_sequence self interface off /\
        mode_is_valid mode = false /\
        fst (_enable_and_set_mode self interface mode dev log)
        = Raise (AssertionError "Invalid mode")) \/
     (exists off e,
        fst (_enable_and_set_mode self interface mode dev log) = Raise e /\
        device_error e /\ tr <> [] /\
        beginning tr (Req.mode_sequence self interface mode off) /\
        (mode_is_valid mode = false ->
         beginning tr (Req.enable_sequence self interface off)))).
Proof.
  unfold _enable_and_set_mode, _is_interface_off. run_driver.
  destruct (mode_is_valid mode) eqn:Hm.
  all: repeat next_test.
  all: try close_leaf.
Qed.


Lemma mode_is_valid_false mode :
  mode_is_valid mode = false <-> mode <> "access" /\ mode <> "trunk".
Proof.
  unfold mode_is_valid. simpl. rewrite orb_false_r, orb_false_iff.
  now rewrite !String.eqb_neq.
Qed.

Lemma beginning_in {A} (x : A) l full :
  beginning l full -> In x l -> In x full.
Proof. intros [rest ->] H. apply in_app_iff. now left. Qed.

Lemma add_vlan_not_in_mode_sequence self interface vlan mode off :
  ~ In (Req.add_vlan self interface vlan)
       (Req.mode_sequence self interface mode off).
Proof.
  unfold Req.mode_sequence. destruct off; cbn [app In];
    intros H; repeat (destruct H as [H|H]; [cbn in H; discriminate H|]);
    exact H.
Qed.

Lemma native_requests_not_in_mode_sequence self interface vlan mode off :
  ~ In (Req.native_vlan self interface vlan)
       (Req.mode_sequence self interface mode off) /\
  ~ In (Req.disable_native_tag self interface)
       (Req.mode_sequence self interface mode off).
Proof.
  unfold Req.mode_sequence. split; destruct off; cbn [app In];
    intros H;
    repeat (destruct H as [H|H];
            [first [ cbn in H; discriminate H
                   | symmetry in H;
                     now apply disable_native_tag_not_no_shutdown in H ]|]);
    exact H.
Qed.

End ModeFacts.

(** ** The driver against its specification *)

Module BrocadeSpec.
Import DriverFacts ModeFacts ReaderTheorems.

Lemma is_interface_off_log self interface dev log :
  snd (_is_interface_off self interface dev log)
  = log ++ [Req.state self interface].
Proof.
  unfold _is_interface_off. run_driver. repeat next_test; reflexivity.
Qed.

(** [_remove_all_vlans_from_trunk] returns normally whatever the device
    answers. *)
Lemma remove_all_vlans_any_status self interface dev log :
  _remove_all_vlans_from_trunk self interface dev log
  = (Ok tt, log ++ [Req.remove_all_vlans self interface]).
Proof. reflexivity. Qed.

(** A mutator that is one checked request: a status that is not tolerated
    is raised as [SwitchError]. *)
Lemma remove_vlan_checked self interface vlan dev log :
  _remove_vlan_from_trunk self interface vlan dev log
  = (if tolerated []
          (status_code (dev log (Req.remove_vlan self interface vlan)))
     then Ok tt
     else Raise (SwitchError
                   (detail (dev log (Req.remove_vlan self interface vlan)))),
     log ++ [Req.remove_vlan self interface vlan]).
Proof.
  unfold _remove_vlan_from_trunk, Req.remove_vlan. run_driver.
  next_test; reflexivity.
Qed.

(** C1 as stated fails: with the mode ["bogus"], on a device that accepts
    every request, the call raises [AssertionError] after two requests,
    not [BadArgumentError] after none. *)
Lemma enable_and_set_mode_bogus_counterexample :
  _enable_and_set_mode Sim.sw "1/0/1" "bogus"
    (Sim.always 200 (Some Sim.doc_up)) []
  = (Raise (AssertionError "Invalid mode"),
     [Req.state Sim.sw "1/0/1"; Req.switchport Sim.sw "1/0/1"]) /\
  ~ (exists msg,
       _enable_and_set_mode Sim.sw "1/0/1" "bogus"
         (Sim.always 200 (Some Sim.doc_up)) []
       = (Raise (BadArgumentError msg), [])).
Proof.
  split; [reflexivity|]. intros [msg H]. vm_compute in H. discriminate H.
Qed.

(** C2, at the input where the code departs from it.  A device answers
    every request with status 500, which no call tolerates.
    [_remove_vlan_from_trunk] raises [SwitchError];
    [_remove_all_vlans_from_trunk] sends its request and returns
    normally. *)
Theorem remove_all_vlans_status_unchecked :
  tolerated [] 500 = false /\
  _remove_vlan_from_trunk Sim.sw "1/0/1" "100" (Sim.always 500 None) []
  = (Raise (SwitchError "device detail"),
     [Req.remove_vlan Sim.sw "1/0/1" "100"]) /\
  _remove_all_vlans_from_trunk Sim.sw "1/0/1" (Sim.always 500 None) []
  = (Ok tt, [Req.remove_all_vlans Sim.sw "1/0/1"]).
Proof. repeat split. Qed.

(** C3, at the input where the code departs from it.  ["1/2"] followed
    by a newline is not two or three segments separated by [/], and the
    validator accepts it. *)
Theorem validate_port_name_trailing_newline :
  Shape.port_form Sim.port_with_newline = false /\
  validate_port_name Sim.port_with_newline = Ok tt.
Proof. split; reflexivity. Qed.

(** C4.  When the read of the port state succeeds and its document is
    [root]: without a [shutdown] child [_is_interface_off] returns
    [False]; with one whose text is ["true"] it returns [True]; with one
    whose text is anything else it raises [SwitchError]. *)
Theorem is_interface_off_three_cases self interface dev log root :
  tolerated [] (status_code (dev log (Req.state self interface))) = true ->
  text (dev log (Req.state self interface)) = Some root ->
  (Xml.find root (_construct_tag "shutdown") = None ->
   _is_interface_off self interface dev log
   = (Ok false, log ++ [Req.state self interface])) /\
  (forall sd,
     Xml.find root (_construct_tag "shutdown") = Some sd ->
     Xml.text sd = Some "true" ->
     _is_interface_off self interface dev log
     = (Ok true, log ++ [Req.state self interface])) /\
  (forall sd,
     Xml.find root (_construct_tag "shutdown") = Some sd ->
     Xml.text sd <> Some "true" ->
     exists msg,
       _is_interface_off self interface dev log
       = (Raise (SwitchError msg), log ++ [Req.state self interface])).
Proof.
  intros Hs Ht. rewrite (is_interface_off_read self interface dev log Hs Ht).
  split; [|split].
  - now intros ->.
  - intros sd -> Hx. apply text_is_true in Hx. now rewrite Hx.
  - intros sd -> Hx. apply text_is_false in Hx. rewrite Hx. eauto.
Qed.

(** C4 on three devices: a port that is up, one that is shut down, and
    one whose shutdown element says ["false"]. *)
Lemma is_interface_off_three_cases_witness :
  _is_interface_off Sim.sw "1/0/1" (Sim.always 200 (Some Sim.doc_up)) []
  = (Ok false, [Req.state Sim.sw "1/0/1"]) /\
  _is_interface_off Sim.sw "1/0/1" (Sim.always 200 (Some Sim.doc_down)) []
  = (Ok true, [Req.state Sim.sw "1/0/1"]) /\
  exists msg,
    _is_interface_off Sim.sw "1/0/1" (Sim.always 200 (Some Sim.doc_odd)) []
    = (Raise (SwitchError msg), [Req.state Sim.sw "1/0/1"]).
Proof.
  split; [|split].
  - apply (proj1 (@is_interface_off_three_cases Sim.sw "1/0/1"
                    (Sim.always 200 (Some Sim.doc_up)) [] Sim.doc_up
                    eq_refl eq_refl)).
    reflexivity.
  - apply (proj1 (proj2 (@is_interface_off_three_cases Sim.sw "1/0/1"
                    (Sim.always 200 (Some Sim.doc_down)) [] Sim.doc_down
                    eq_refl eq_refl))
             (Xml.Element (_construct_tag "shutdown") (Some "true") [])).
    + reflexivity.
    + reflexivity.
  - apply (proj2 (proj2 (@is_interface_off_three_cases Sim.sw "1/0/1"
                    (Sim.always 200 (Some Sim.doc_odd)) [] Sim.doc_odd
                    eq_refl eq_refl))
             (Xml.Element (_construct_tag "shutdown") (Some "false") [])).
    + reflexivity.
    + discriminate.
Defined.

(** C5.  When the read of the trunk configuration succeeds and its
    document is [root]: if one of the nested elements [allowed], [vlan],
    [add] is missing, [_get_vlans] returns the empty list; if the
    [native-vlan] element is missing, [_get_native_vlan] returns [None].
    Neither raises. *)
Theorem absent_fields_read_as_empty self interface dev log root :
  tolerated [] (status_code (dev log (Req.trunk self interface))) = true ->
  text (dev log (Req.trunk self interface)) = Some root ->
  (find_path root [_construct_tag "allowed"; _construct_tag "vlan";
                   _construct_tag "add"] = None ->
   _get_vlans self interface dev log
   = (Ok [], log ++ [Req.trunk self interface])) /\
  (Xml.find root (_construct_tag "native-vlan") = None ->
   _get_native_vlan self interface dev log
   = (Ok None, log ++ [Req.trunk self interface])).
Proof.
  intros Hs Ht. unfold Req.trunk in *. split.
  - unfold _get_vlans, find_path. run_driver. rewrite Hs, Ht. cbv beta iota.
    destruct (Xml.find root _) as [allowed|]; [|reflexivity].
    cbv beta iota.
    destruct (Xml.find allowed _) as [vlan|]; [|reflexivity].
    cbv beta iota.
    destruct (Xml.find vlan _) as [add|]; [discriminate | reflexivity].
  - intros Hn. unfold _get_native_vlan. run_driver.
    rewrite Hs, Ht. cbv beta iota. rewrite Hn. reflexivity.
Qed.

(** C5 on a port with nothing configured. *)
Lemma absent_fields_read_as_empty_witness :
  _get_vlans Sim.sw "1/0/1" (Sim.always 200 (Some Sim.doc_up)) []
  = (Ok [], [Req.trunk Sim.sw "1/0/1"]) /\
  _get_native_vlan Sim.sw "1/0/1" (Sim.always 200 (Some Sim.doc_up)) []
  = (Ok None, [Req.trunk Sim.sw "1/0/1"]).
Proof.
  split.
  - apply (proj1 (@absent_fields_read_as_empty Sim.sw "1/0/1"
                    (Sim.always 200 (Some Sim.doc_up)) [] Sim.doc_up
                    eq_refl eq_refl)).
    reflexivity.
  - apply (proj2 (@absent_fields_read_as_empty Sim.sw "1/0/1"
                    (Sim.always 200 (Some Sim.doc_up)) [] Sim.doc_up
                    eq_refl eq_refl)).
    reflexivity.
Defined.

(** C10.  When the read of the mode succeeds and its document has no
    [vlan-mode] child, [_get_mode] raises [AttributeError]: not a
    [SwitchError], and not a value. *)
Theorem get_mode_missing_field self interface dev log root :
  tolerated [] (status_code (dev log (Req.get_mode self interface))) = true ->
  text (dev log (Req.get_mode self interface)) = Some root ->
  Xml.find root (_construct_tag "vlan-mode") = None ->
  _get_mode self interface dev log
  = (Raise AttributeError, log ++ [Req.get_mode self interface]).
Proof.
  intros Hs Ht Hn. unfold Req.get_mode in *. unfold _get_mode. run_driver.
  rewrite Hs, Ht. cbv beta iota. rewrite Hn. reflexivity.
Qed.

(** C10 on a document without children. *)
Lemma get_mode_missing_field_witness :
  _get_mode Sim.sw "1/0/1" (Sim.always 200 (Some Sim.doc_up)) []
  = (Raise AttributeError, [Req.get_mode Sim.sw "1/0/1"]).
Proof.
  apply (@get_mode_missing_field Sim.sw "1/0/1"
           (Sim.always 200 (Some Sim.doc_up)) [] Sim.doc_up);
    reflexivity.
Defined.

(** C7.  A call of [_add_vlan_to_trunk] first runs
    [_enable_and_set_mode] for the mode [trunk].  Either that sequence
    completes, and then the request adding the VLAN is the next and last
    request of the call; or it raises, the call raises the same error, and
    the request adding the VLAN is not sent. *)
Theorem add_vlan_follows_mode_sequence self interface vlan dev log :
  exists tr,
    snd (_enable_and_set_mode self interface "trunk" dev log) = log ++ tr /\
    ((exists off,
        tr = Req.mode_sequence self interface "trunk" off /\
        fst (_enable_and_set_mode self interface "trunk" dev log) = Ok tt /\
        snd (_add_vlan_to_trunk self interface vlan dev log)
        = log ++ tr ++ [Req.add_vlan self interface vlan]) \/
     (exists e,
        fst (_enable_and_set_mode self interface "trunk" dev log) = Raise e /\
        _add_vlan_to_trunk self interface vlan dev log
        = (Raise e, log ++ tr) /\
        ~ In (Req.add_vlan self interface vlan) tr)).
Proof.
  destruct (enable_and_set_mode_outcomes self interface "trunk" dev log)
    as [tr [Hl H]].
  exists tr. split; [exact Hl|].
  unfold _add_vlan_to_trunk. run_driver.
  destruct (_enable_and_set_mode self interface "trunk" dev log) as [r l].
  cbn [fst snd] in *. subst l.
  destruct H as [[off [-> [_ ->]]]|[[off [_ [Hv _]]]|[off [e [-> [_ [_ [Hb _]]]]]]]].
  - left. exists off. split; [reflexivity|]. split; [reflexivity|].
    next_test; cbn [snd]; now rewrite <- app_assoc.
  - discriminate Hv.
  - right. exists e. split; [reflexivity|]. split; [reflexivity|].
    intros Hin. apply (@beginning_in _ _ _ _ Hb) in Hin.
    now apply add_vlan_not_in_mode_sequence in Hin.
Qed.

(** C8.  A call of [_set_native_vlan] first runs [_enable_and_set_mode]
    for the mode [trunk].  When that sequence completes, the request that
    disables native tagging is sent next; a 404 answer to it is tolerated;
    when its answer is tolerated the request setting the native VLAN is
    the next and last request, and otherwise the call stops there with
    [SwitchError].  When the mode sequence raises, the call raises the same
    error and sends neither of the two later requests. *)
Theorem set_native_vlan_order self interface vlan dev log :
  exists tr,
    snd (_enable_and_set_mode self interface "trunk" dev log) = log ++ tr /\
    ((exists off,
        tr = Req.mode_sequence self interface "trunk" off /\
        fst (_enable_and_set_mode self interface "trunk" dev log) = Ok tt /\
        tolerated [404%Z] 404 = true /\
        if tolerated [404%Z]
             (status_code
                (dev (log ++ tr) (Req.disable_native_tag self interface)))
        then snd (_set_native_vlan self interface vlan dev log)
             = log ++ tr ++ [Req.disable_native_tag self interface;
                             Req.native_vlan self interface vlan]
        else _set_native_vlan self interface vlan dev log
             = (Raise (SwitchError
                         (detail (dev (log ++ tr)
                                    (Req.disable_native_tag self interface)))),
                log ++ tr ++ [Req.disable_native_tag self interface])) \/
     (exists e,
        fst (_enable_and_set_mode self interface "trunk" dev log) = Raise e /\
        _set_native_vlan self interface vlan dev log = (Raise e, log ++ tr) /\
        ~ In (Req.disable_native_tag self interface) tr /\
        ~ In (Req.native_vlan self interface vlan) tr)).
Proof.
  destruct (enable_and_set_mode_outcomes self interface "trunk" dev log)
    as [tr [Hl H]].
  exists tr. split; [exact Hl|].
  unfold _set_native_vlan, _disable_native_tag. run_driver.
  destruct (_enable_and_set_mode self interface "trunk" dev log) as [r l].
  cbn [fst snd] in *. subst l.
  destruct H as [[off [-> [_ ->]]]|[[off [_ [Hv _]]]|[off [e [-> [_ [_ [Hb _]]]]]]]].
  - left. exists off. split; [reflexivity|]. split; [reflexivity|].
    split; [apply tolerated_listed|].
    unfold Req.disable_native_tag.
    destruct (tolerated [404%Z] _); cbv beta iota.
    + next_test; cbn [snd]; now rewrite <- !app_assoc.
    + now rewrite <- app_assoc.
  - discriminate Hv.
  - right. exists e. split; [reflexivity|]. split; [reflexivity|].
    destruct (native_requests_not_in_mode_sequence
                self interface vlan "trunk" off) as [Hn Hd].
    split; intros Hin; apply (@beginning_in _ _ _ _ Hb) in Hin; tauto.
Qed.

(** C9.  A 409 answer to the request of [_port_shutdown] is a success:
    the call returns normally.  A 409 answer to the request that enables
    switching is a success too: when the steps around it succeed,
    [_enable_and_set_mode] returns normally after its whole sequence. *)
Theorem conflict_is_success self interface dev log :
  (status_code (dev log (Req.shutdown self interface)) = 409%Z ->
   _port_shutdown self interface dev log
   = (Ok tt, log ++ [Req.shutdown self interface])) /\
  (forall mode off,
     mode_is_valid mode = true ->
     fst (_is_interface_off self interface dev log) = Ok off ->
     (off = true ->
      tolerated []
        (status_code (dev (log ++ [Req.state self interface])
                          (Req.no_shutdown self interface))) = true) ->
     status_code
       (dev (log ++ Req.state self interface ::
                    (if off then [Req.no_shutdown self interface] else []))
            (Req.switchport self interface)) = 409%Z ->
     tolerated []
       (status_code
          (dev (log ++ Req.enable_sequence self interface off)
               (Req.set_mode self interface mode))) = true ->
     _enable_and_set_mode self interface mode dev log
     = (Ok tt, log ++ Req.mode_sequence self interface mode off)).
Proof.
  split.
  - intros H. unfold _port_shutdown, Req.shutdown in *. run_driver.
    rewrite H, tolerated_listed. reflexivity.
  - intros mode off Hm Hoff Hdel Hpost Hput.
    pose proof (is_interface_off_log self interface dev log) as Hl.
    unfold _enable_and_set_mode. run_driver.
    destruct (_is_interface_off self interface dev log) as [r l].
    cbn [fst snd] in *. subst r l. cbv beta iota.
    unfold Req.enable_sequence, Req.mode_sequence, Req.no_shutdown,
      Req.switchport, Req.set_mode in *.
    destruct off; cbv beta iota.
    + rewrite (Hdel eq_refl). cbv beta iota.
      rewrite <- app_assoc. cbn [app] in *.
      rewrite Hpost, tolerated_listed. cbv beta iota. rewrite Hm.
      rewrite <- app_assoc. cbn [app]. rewrite Hput.
      cbv beta iota. now rewrite <- app_assoc.
    + cbn [app] in *.
      rewrite Hpost, tolerated_listed. cbv beta iota. rewrite Hm.
      rewrite <- app_assoc. cbn [app]. rewrite Hput.
      cbv beta iota. now rewrite <- app_assoc.
Qed.

(** C9 on a device that is already in the target state: it answers 409
    to the shutdown request, and 409 to the request that enables
    switching. *)
Lemma conflict_is_success_witness :
  _port_shutdown Sim.sw "1/0/1" (Sim.always 409 None) []
  = (Ok tt, [Req.shutdown Sim.sw "1/0/1"]) /\
  _enable_and_set_mode Sim.sw "1/0/1" "trunk"
    (Sim.scripted [Sim.reply 200 (Some Sim.doc_up); Sim.reply 409 None]
                  (Sim.reply 200 None)) []
  = (Ok tt, Req.mode_sequence Sim.sw "1/0/1" "trunk" false).
Proof.
  split.
  - apply (proj1 (@conflict_is_success Sim.sw "1/0/1"
                    (Sim.always 409 None) [])).
    reflexivity.
  - apply (proj2 (@conflict_is_success Sim.sw "1/0/1"
                    (Sim.scripted
                       [Sim.reply 200 (Some Sim.doc_up); Sim.reply 409 None]
                       (Sim.reply 200 None)) [])
             "trunk" false).
    + reflexivity.
    + reflexivity.
    + discriminate.
    + reflexivity.
    + reflexivity.
Defined.

Lemma tagged_vlans_snd (vals : list N) :
  map snd (map (fun x => (("vlan/" ++ str_of_N x)%string, x)) vals) = vals.
Proof. rewrite map_map. simpl. apply map_id. Qed.

Lemma tagged_vlans_fst (vals : list N) :
  map fst (map (fun x => (("vlan/" ++ str_of_N x)%string, x)) vals)
  = map (fun x => ("vlan/" ++ str_of_N x)%string) vals.
Proof. now rewrite map_map. Qed.

(** C6.  The codec of [_get_vlans], on the text of the [add] element.
    A text without a digit has no substring of the grammar and decodes to
    the empty list.  Otherwise the text reads as: a part without digits, a
    comma-separated list of tokens [INT] or [INT-INT] that cannot be read
    any further, and the rest; the VLAN numbers returned are those that
    the tokens of that list denote, a bare integer itself and [lo-hi]
    every integer from [lo] to [hi], each paired with its tag.  Every text
    reads in one of the two ways.  ["12,14-18,23,28,80-90"] and ["20"]
    decode as the specification says. *)
Theorem vlan_codec text dev log :
  (Shape.no_digit (list_ascii_of_string text) = true ->
   vlans_of_text (Some text) dev log = (Ok [], log)) /\
  (forall pre t ts post,
     list_ascii_of_string text = pre ++ Shape.render t ts ++ post ->
     Shape.no_digit pre = true ->
     forallb Shape.token_ok (t :: ts) = true ->
     Shape.stops_after t ts post = true ->
     exists out,
       vlans_of_text (Some text) dev log = (Ok out, log) /\
       map fst out
       = map (fun x => ("vlan/" ++ str_of_N x)%string) (map snd out) /\
       forall x, In x (map snd out) <->
                 exists u, In u (t :: ts) /\ Shape.denotes u x) /\
  (Shape.no_digit (list_ascii_of_string text) = true \/
   exists pre t ts post,
     list_ascii_of_string text = pre ++ Shape.render t ts ++ post /\
     Shape.no_digit pre = true /\
     forallb Shape.token_ok (t :: ts) = true /\
     Shape.stops_after t ts post = true) /\
  vlans_of_text (Some "12,14-18,23,28,80-90") dev log
  = (Ok (map (fun x => (("vlan/" ++ str_of_N x)%string, x))
           [12; 14; 15; 16; 17; 18; 23; 28; 80; 81; 82; 83; 84; 85; 86; 87;
            88; 89; 90]%N), log) /\
  vlans_of_text (Some "20") dev log = (Ok [("vlan/20", 20%N)], log).
Proof.
  split; [apply VlanCodecFacts.vlans_of_text_no_digit|].
  split; [|split; [apply VlanCodecFacts.text_read | split; reflexivity]].
  intros pre t ts post E Hp Hok Hs.
  eexists. split; [eapply VlanCodecFacts.vlans_of_text_list; eassumption|].
  rewrite tagged_vlans_snd, tagged_vlans_fst. split; [reflexivity|].
  intros x. rewrite in_flat_map. split.
  - intros [u [Hu Hx]]. exists u. split; [assumption|].
    now apply ParseVlansFacts.in_token_values.
  - intros [u [Hu Hx]]. exists u. split; [assumption|].
    now apply ParseVlansFacts.in_token_values.
Qed.

(** C6 on the text ["ab 12,14-18;"]: the list is [12,14-18], between
    ["ab "] and [";"]. *)
Lemma vlan_codec_witness :
  exists out,
    vlans_of_text (Some "ab 12,14-18;") (Sim.always 200 None) []
    = (Ok out, []) /\
    map fst out
    = map (fun x => ("vlan/" ++ str_of_N x)%string) (map snd out) /\
    forall x, In x (map snd out) <->
      exists u,
        In u [Shape.Single (list_ascii_of_string "12");
              Shape.Range (list_ascii_of_string "14")
                          (list_ascii_of_string "18")] /\
        Shape.denotes u x.
Proof.
  apply (proj1 (proj2 (@vlan_codec "ab 12,14-18;" (Sim.always 200 None) []))
           (list_ascii_of_string "ab ")
           (Shape.Single (list_ascii_of_string "12"))
           [Shape.Range (list_ascii_of_string "14")
                        (list_ascii_of_string "18")]
           (list_ascii_of_string ";"));
    reflexivity.
Defined.

End BrocadeSpec.

(** ** Further properties of the driver *)

Module ModeRun.
Import DriverFacts ModeFacts.

(** A call of [_enable_and_set_mode], step by step. *)
Lemma enable_and_set_mode_run self interface mode dev log :
  _enable_and_set_mode self interface mode dev log =
  match fst (_is_interface_off self interface dev log) with
  | Raise e => (Raise e, log ++ [Req.state self interface])
  | Ok off =>
      if off &&
         negb (tolerated []
                 (status_code (dev (log ++ [Req.state self interface])
                                   (Req.no_shutdown self interface))))
      then (Raise (SwitchError
                     (detail (dev (log ++ [Req.state self interface])
                                  (Req.no_shutdown self interface)))),
            log ++ [Req.state self interface;
                    Req.no_shutdown self interface])
      else if tolerated [409%Z]
                (status_code
                   (dev (log ++ Req.state self interface ::
                           (if off then [Req.no_shutdown self interface]
                            else []))
                        (Req.switchport self interface)))
      then if mode_is_valid mode
           then (if tolerated []
                      (status_code
                         (dev (log ++ Req.enable_sequence self interface off)
                              (Req.set_mode self interface mode)))
                 then Ok tt
                 else Raise (SwitchError
                        (detail
                           (dev (log ++ Req.enable_sequence self interface off)
                                (Req.set_mode self interface mode)))),
                 log ++ Req.mode_sequence self interface mode off)
           else (Raise (AssertionError "Invalid mode"),
                 log ++ Req.enable_sequence self interface off)
      else (Raise (SwitchError
                     (detail
                        (dev (log ++ Req.state self interface ::
                                (if off then [Req.no_shutdown self interface]
                                 else []))
                             (Req.switchport self interface)))),
            log ++ Req.enable_sequence self interface off)
  end.
Proof.
  pose proof (BrocadeSpec.is_interface_off_log self interface dev log) as Hl.
  unfold _enable_and_set_mode. run_driver.
  destruct (_is_interface_off self interface dev log) as [r l].
  cbn [fst snd] in *. subst l.
  destruct r as [off|e]; cbv beta iota; [|reflexivity].
  unfold Req.enable_sequence, Req.mode_sequence, Req.no_shutdown,
    Req.switchport, Req.set_mode.
  destruct off; cbv beta iota; cbn [andb app].
  - destruct (tolerated [] _); cbn [negb]; cbv beta iota;
      [|now rewrite <- app_assoc].
    rewrite <- app_assoc. cbn [app].
    destruct (tolerated [409%Z] _); cbv beta iota;
      [|now rewrite <- app_assoc].
    destruct (mode_is_valid mode); cbv beta iota;
      [|now rewrite <- app_assoc].
    rewrite <- app_assoc. cbn [app].
    destruct (tolerated [] _); cbv beta iota; now rewrite <- app_assoc.
  - destruct (tolerated [409%Z] _); cbv beta iota;
      [|now rewrite <- app_assoc].
    destruct (mode_is_valid mode); cbv beta iota;
      [|now rewrite <- app_assoc].
    rewrite <- app_assoc. cbn [app].
    destruct (tolerated [] _); cbv beta iota; now rewrite <- app_assoc.
Qed.

End ModeRun.

Module InvalidMode.
Import DriverFacts ModeFacts ModeRun.

(** The read of the port state only fails with an error of the device or
    of its answer. *)
Lemma is_interface_off_errors self interface dev log e :
  fst (_is_interface_off self interface dev log) = Raise e -> device_error e.
Proof.
  unfold _is_interface_off. run_driver.
  repeat next_test; cbn [fst]; intros H;
    first [discriminate H | injection H as <-; exact I].
Qed.

(** C1, as amended.  For a mode that is neither [access] nor [trunk],
    [_enable_and_set_mode] never returns normally and never gets to the
    request that sets the mode; it always sends at least the read of the
    port state.  When that read raises, the call raises the same error,
    an error of the device or of its answer, and has sent nothing else.
    When the read reports the port shut down, the request that clears the
    shutdown flag comes next, and an answer to it that is not tolerated
    is raised as [SwitchError] there; a port reported up is not sent that
    request.  The request that enables switching comes next; when its
    answer is tolerated, 409 included, the call raises
    [AssertionError "Invalid mode"], and otherwise [SwitchError]. *)
Theorem enable_and_set_mode_invalid_mode self interface mode dev log :
  mode <> "access" -> mode <> "trunk" ->
  exists e tr,
    _enable_and_set_mode self interface mode dev log = (Raise e, log ++ tr) /\
    match fst (_is_interface_off self interface dev log) with
    | Raise e' =>
        e = e' /\ device_error e /\ tr = [Req.state self interface]
    | Ok off =>
        if off &&
           negb (tolerated []
                   (status_code (dev (log ++ [Req.state self interface])
                                     (Req.no_shutdown self interface))))
        then
          e = SwitchError
                (detail (dev (log ++ [Req.state self interface])
                             (Req.no_shutdown self interface))) /\
          tr = [Req.state self interface; Req.no_shutdown self interface]
        else if tolerated [409%Z]
                  (status_code
                     (dev (log ++ Req.state self interface ::
                             (if off then [Req.no_shutdown self interface]
                              else []))
                          (Req.switchport self interface)))
        then
          e = AssertionError "Invalid mode" /\
          tr = Req.enable_sequence self interface off
        else
          e = SwitchError
                (detail
                   (dev (log ++ Req.state self interface ::
                           (if off then [Req.no_shutdown self interface]
                            else []))
                        (Req.switchport self interface))) /\
          tr = Req.enable_sequence self interface off
    end.
Proof.
  intros Ha Ht.
  assert (Hm : mode_is_valid mode = false)
    by (apply mode_is_valid_false; auto).
  rewrite enable_and_set_mode_run, Hm.
  destruct (fst (_is_interface_off self interface dev log)) as [off|e'] eqn:E.
  - destruct (off && negb _).
    + eexists. eexists. split; [reflexivity|]. split; reflexivity.
    + destruct (tolerated [409%Z] _);
        (eexists; eexists; split; [reflexivity|]; split; reflexivity).
  - exists e', [Req.state self interface]. split; [reflexivity|].
    split; [reflexivity|]. split; [|reflexivity].
    now apply (is_interface_off_errors self interface dev log).
Qed.

(** The amended C1 at the mode ["bogus"]: on a device that accepts every
    request and reports the port up, and on one that reports it shut
    down. *)
Lemma enable_and_set_mode_invalid_mode_witness :
  "bogus" <> "access" /\ "bogus" <> "trunk" /\
  (exists e tr,
     _enable_and_set_mode Sim.sw "1/0/1" "bogus"
       (Sim.always 200 (Some Sim.doc_up)) [] = (Raise e, [] ++ tr) /\
     e = AssertionError "Invalid mode" /\
     tr = Req.enable_sequence Sim.sw "1/0/1" false) /\
  (exists e tr,
     _enable_and_set_mode Sim.sw "1/0/1" "bogus"
       (Sim.always 200 (Some Sim.doc_down)) [] = (Raise e, [] ++ tr) /\
     e = AssertionError "Invalid mode" /\
     tr = Req.enable_sequence Sim.sw "1/0/1" true).
Proof.
  assert (Ha : "bogus" <> "access") by discriminate.
  assert (Ht : "bogus" <> "trunk") by discriminate.
  split; [exact Ha|]. split; [exact Ht|]. split.
  - destruct (@enable_and_set_mode_invalid_mode Sim.sw "1/0/1" "bogus"
                (Sim.always 200 (Some Sim.doc_up)) [] Ha Ht)
      as [e [tr [H1 H2]]].
    exists e, tr. split; [exact H1 | exact H2].
  - destruct (@enable_and_set_mode_invalid_mode Sim.sw "1/0/1" "bogus"
                (Sim.always 200 (Some Sim.doc_down)) [] Ha Ht)
      as [e [tr [H1 H2]]].
    exists e, tr. split; [exact H1 | exact H2].
Defined.

End InvalidMode.

Module SequenceProperties.
Import DriverFacts ModeFacts ModeRun.

(** X1.  [_enable_and_set_mode] returns normally exactly when the mode is one
    of the two, the port state could be read, and every request of the
    sequence got an answer it tolerates: any success status, and 409 too
    for the request that enables switching. *)
Theorem enable_and_set_mode_succeeds_iff self interface mode dev log :
  fst (_enable_and_set_mode self interface mode dev log) = Ok tt <->
  exists off,
    fst (_is_interface_off self interface dev log) = Ok off /\
    (off = true ->
     tolerated []
       (status_code (dev (log ++ [Req.state self interface])
                         (Req.no_shutdown self interface))) = true) /\
    tolerated [409%Z]
      (status_code
         (dev (log ++ Req.state self interface ::
                 (if off then [Req.no_shutdown self interface] else []))
              (Req.switchport self interface))) = true /\
    mode_is_valid mode = true /\
    tolerated []
      (status_code
         (dev (log ++ Req.enable_sequence self interface off)
              (Req.set_mode self interface mode))) = true.
Proof.
  rewrite enable_and_set_mode_run.
  destruct (fst (_is_interface_off self interface dev log)) as [off|e].
  2: { split; [discriminate | intros [off [H _]]; discriminate H]. }
  split.
  - intros H. exists off. split; [reflexivity|]. revert H.
    destruct off; cbn [andb]; cbv beta iota.
    + destruct (tolerated [] (status_code (dev (log ++ [_]) _)));
        cbn [negb]; cbv beta iota; [|discriminate].
      destruct (tolerated [409%Z] _); [|discriminate].
      destruct (mode_is_valid mode); [|discriminate].
      destruct (tolerated [] _); [|discriminate]. auto.
    + destruct (tolerated [409%Z] _); [|discriminate].
      destruct (mode_is_valid mode); [|discriminate].
      destruct (tolerated [] _); [|discriminate].
      repeat split; auto. discriminate.
  - intros [off' [[= <-] [Hdel [Hpost [Hm Hput]]]]].
    destruct off; [rewrite (Hdel eq_refl)|]; cbn [andb negb];
      cbv beta iota; rewrite Hpost, Hm, Hput; reflexivity.
Qed.

(** [enable_and_set_mode_succeeds_iff] on a port that is shut down and a
    device that accepts every request. *)
Lemma enable_and_set_mode_succeeds_iff_witness :
  fst (_enable_and_set_mode Sim.sw "1/0/1" "access"
         (Sim.always 200 (Some Sim.doc_down)) []) = Ok tt.
Proof.
  apply (proj2 (@enable_and_set_mode_succeeds_iff Sim.sw "1/0/1" "access"
                  (Sim.always 200 (Some Sim.doc_down)) [])).
  exists true. repeat split.
Defined.

(** X2.  The request that clears the shutdown flag is among the requests of
    [_enable_and_set_mode] exactly when the read of the port state
    reported the port shut down. *)
Theorem shutdown_cleared_iff_port_off self interface mode dev log :
  exists tr,
    snd (_enable_and_set_mode self interface mode dev log) = log ++ tr /\
    (In (Req.no_shutdown self interface) tr <->
     fst (_is_interface_off self interface dev log) = Ok true).
Proof.
  rewrite enable_and_set_mode_run.
  destruct (fst (_is_interface_off self interface dev log)) as [off|e].
  2: { eexists. split; [reflexivity|]. split; [|discriminate].
       intros [H|[]]. discriminate H. }
  unfold Req.enable_sequence, Req.mode_sequence.
  destruct off; cbn [andb app]; cbv beta iota.
  - destruct (tolerated [] (status_code (dev (log ++ [_]) _)));
      cbn [negb]; cbv beta iota.
    + destruct (tolerated [409%Z] _); [destruct (mode_is_valid mode)|];
        (eexists; split; [reflexivity|]; split; [reflexivity|];
         intros _; right; now left).
    + eexists. split; [reflexivity|]. split; [reflexivity|].
      intros _. right. now left.
  - destruct (tolerated [409%Z] _); [destruct (mode_is_valid mode)|];
      (eexists; split; [reflexivity|]; split; [|discriminate];
       intros H; cbn [In] in H;
       repeat (destruct H as [H|H]; [discriminate H|]); destruct H).
Qed.

Lemma add_vlan_to_trunk_run self interface vlan dev log :
  _add_vlan_to_trunk self interface vlan dev log =
  match _enable_and_set_mode self interface "trunk" dev log with
  | (Ok _, l) =>
      (if tolerated []
            (status_code (dev l (Req.add_vlan self interface vlan)))
       then Ok tt
       else Raise (SwitchError
                     (detail (dev l (Req.add_vlan self interface vlan)))),
       l ++ [Req.add_vlan self interface vlan])
  | (Raise e, l) => (Raise e, l)
  end.
Proof.
  unfold _add_vlan_to_trunk, Req.add_vlan. run_driver.
  destruct (_enable_and_set_mode self interface "trunk" dev log)
    as [[u|e] l]; [|reflexivity].
  next_test; reflexivity.
Qed.

Lemma set_native_vlan_run self interface vlan dev log :
  _set_native_vlan self interface vlan dev log =
  match _enable_and_set_mode self interface "trunk" dev log with
  | (Ok _, l) =>
      if tolerated [404%Z]
           (status_code (dev l (Req.disable_native_tag self interface)))
      then
        (if tolerated []
              (status_code
                 (dev (l ++ [Req.disable_native_tag self interface])
                      (Req.native_vlan self interface vlan)))
         then Ok tt
         else Raise (SwitchError
                (detail
                   (dev (l ++ [Req.disable_native_tag self interface])
                        (Req.native_vlan self interface vlan)))),
         l ++ [Req.disable_native_tag self interface;
               Req.native_vlan self interface vlan])
      else (Raise (SwitchError
                     (detail
                        (dev l (Req.disable_native_tag self interface)))),
            l ++ [Req.disable_native_tag self interface])
  | (Raise e, l) => (Raise e, l)
  end.
Proof.
  unfold _set_native_vlan, _disable_native_tag, Req.native_vlan,
    Req.disable_native_tag.
  run_driver.
  destruct (_enable_and_set_mode self interface "trunk" dev log)
    as [[u|e] l]; [|reflexivity].
  destruct (tolerated [404%Z] _); cbv beta iota; [|reflexivity].
  destruct (tolerated [] _); cbv beta iota; now rewrite <- app_assoc.
Qed.

Lemma beginning_length {A} (l full : list A) :
  beginning l full -> length l <= length full.
Proof. intros [rest ->]. rewrite length_app. lia. Qed.

Lemma mode_sequence_length self interface mode off :
  3 <= length (Req.mode_sequence self interface mode off) <= 4.
Proof. destruct off; simpl; lia. Qed.

Lemma enable_and_set_mode_budget self interface mode dev log :
  exists tr,
    snd (_enable_and_set_mode self interface mode dev log) = log ++ tr /\
    1 <= length tr <= 4 /\
    (fst (_enable_and_set_mode self interface mode dev log) = Ok tt ->
     3 <= length tr).
Proof.
  destruct (enable_and_set_mode_outcomes self interface mode dev log)
    as [tr [Hl H]].
  exists tr. split; [exact Hl|].
  destruct H as [[off [-> _]]|[[off [-> [_ ->]]]|[off [e [-> [_ [Hn [Hb _]]]]]]]].
  - pose proof (mode_sequence_length self interface mode off). lia.
  - split; [destruct off; simpl; lia | discriminate].
  - apply beginning_length in Hb.
    pose proof (mode_sequence_length self interface mode off).
    split; [|discriminate].
    destruct tr; [congruence | simpl in *; lia].
Qed.

(** X3.  How many requests one call sends: [_enable_and_set_mode] between one
    and four, [_add_vlan_to_trunk] between one and five,
    [_set_native_vlan] between one and six; a call that returns normally
    has sent at least three, four and five of them. *)
Theorem mutators_request_budget self interface mode vlan dev log :
  (exists tr,
     snd (_enable_and_set_mode self interface mode dev log) = log ++ tr /\
     1 <= length tr <= 4 /\
     match fst (_enable_and_set_mode self interface mode dev log) with
     | Ok _ => 3 <= length tr
     | Raise _ => True
     end) /\
  (exists tr,
     snd (_add_vlan_to_trunk self interface vlan dev log) = log ++ tr /\
     1 <= length tr <= 5 /\
     match fst (_add_vlan_to_trunk self interface vlan dev log) with
     | Ok _ => 4 <= length tr
     | Raise _ => True
     end) /\
  (exists tr,
     snd (_set_native_vlan self interface vlan dev log) = log ++ tr /\
     1 <= length tr <= 6 /\
     match fst (_set_native_vlan self interface vlan dev log) with
     | Ok _ => 5 <= length tr
     | Raise _ => True
     end).
Proof.
  split; [|split].
  - destruct (enable_and_set_mode_budget self interface mode dev log)
      as [tr [Hl [Hb Hok]]].
    exists tr. split; [exact Hl|]. split; [exact Hb|].
    destruct (fst _) as [[]|e]; [now apply Hok | exact I].
  - rewrite add_vlan_to_trunk_run.
    destruct (enable_and_set_mode_budget self interface "trunk" dev log)
      as [tr [Hl [Hb Hok]]].
    destruct (_enable_and_set_mode self interface "trunk" dev log)
      as [[[]|e] l]; cbn [fst snd] in *; subst l.
    + exists (tr ++ [Req.add_vlan self interface vlan]).
      rewrite app_assoc, length_app. cbn [length snd fst].
      specialize (Hok eq_refl).
      split; [reflexivity|]. split; [lia|].
      destruct (tolerated [] _); [lia | exact I].
    + exists tr. split; [reflexivity|]. split; [lia | exact I].
  - rewrite set_native_vlan_run.
    destruct (enable_and_set_mode_budget self interface "trunk" dev log)
      as [tr [Hl [Hb Hok]]].
    destruct (_enable_and_set_mode self interface "trunk" dev log)
      as [[[]|e] l]; cbn [fst snd] in *; subst l.
    + specialize (Hok eq_refl).
      destruct (tolerated [404%Z] _).
      * exists (tr ++ [Req.disable_native_tag self interface;
                       Req.native_vlan self interface vlan]).
        rewrite app_assoc, length_app. cbn [length snd fst].
        split; [reflexivity|]. split; [lia|].
        destruct (tolerated [] _); [lia | exact I].
      * exists (tr ++ [Req.disable_native_tag self interface]).
        rewrite app_assoc, length_app. cbn [length snd fst].
        split; [reflexivity|]. split; [lia | exact I].
    + exists tr. split; [reflexivity|]. split; [lia | exact I].
Qed.

End SequenceProperties.

Module UrlProperties.
Import DriverFacts.


Lemma append_inv_tail (a b x : string) :
  (a ++ x = b ++ x)%string -> a = b.
Proof.
  intros H. apply (f_equal list_ascii_of_string) in H.
  rewrite !PortNameTheorems.list_ascii_of_string_app in H.
  apply app_inv_tail in H.
  rewrite <- (string_of_list_ascii_of_string a),
          <- (string_of_list_ascii_of_string b).
  now rewrite H.
Qed.

Lemma url_cancel_port (h c1 it c2 i1 i2 q : string) :
  (h ++ c1 ++ it ++ c2 ++ i1 ++ q = h ++ c1 ++ it ++ c2 ++ i2 ++ q)%string ->
  i1 = i2.
Proof.
  intros H. repeat (apply append_inv_head in H).
  now apply append_inv_tail in H.
Qed.

Lemma url_cancel_suffix (h c1 it c2 i q s1 s2 : string) :
  (h ++ c1 ++ it ++ c2 ++ i ++ q ++ s1
   = h ++ c1 ++ it ++ c2 ++ i ++ q ++ s2)%string ->
  s1 = s2.
Proof. intros H. now repeat (apply append_inv_head in H). Qed.


(** X4.  The URL builder keeps ports and sub-resources apart: on one switch,
    two different ports never get the same URL for the same sub-resource,
    and two different sub-resources of one port never get the same
    URL. *)
Theorem construct_url_injective self :
  (forall i1 i2 suffix,
     i1 <> i2 ->
     _construct_url self i1 suffix <> _construct_url self i2 suffix) /\
  (forall interface s1 s2,
     s1 <> s2 ->
     _construct_url self interface s1 <> _construct_url self interface s2).
Proof.
  split.
  - intros i1 i2 suffix Hn H. apply Hn.
    cbv beta delta [_construct_url] in H.
    now apply url_cancel_port in H.
  - intros interface s1 s2 Hn H. apply Hn.
    cbv beta delta [_construct_url] in H.
    apply url_cancel_suffix in H.
    destruct (String.eqb s1 "") eqn:E1; destruct (String.eqb s2 "") eqn:E2.
    + apply String.eqb_eq in E1, E2. congruence.
    + destruct s2; discriminate.
    + destruct s1; discriminate.
    + now apply (append_inv_head "/switchport/") in H.
Qed.

(** [construct_url_injective] on the ports [1/0/1] and [1/0/2], and on the
    sub-resources [mode] and [trunk]. *)
Lemma construct_url_injective_witness :
  _construct_url Sim.sw "1/0/1" "trunk" <> _construct_url Sim.sw "1/0/2" "trunk"
  /\
  _construct_url Sim.sw "1/0/1" "mode" <> _construct_url Sim.sw "1/0/1" "trunk".
Proof.
  split.
  - apply (proj1 (construct_url_injective Sim.sw)). discriminate.
  - apply (proj2 (construct_url_injective Sim.sw)). discriminate.
Defined.






Lemma vlans_of_text_log v dev log : snd (vlans_of_text v dev log) = log.
Proof.
  unfold vlans_of_text, py_re_search. run_driver.
  destruct v as [t|]; [|reflexivity]. cbv beta iota.
  destruct (Re.re_search vlan_list_re t) as [m|]; [|reflexivity].
  cbv beta iota. unfold lift_result.
  destruct (Common.parse_vlans (Re.group m)); reflexivity.
Qed.

Lemma get_mode_log self interface :
  reads_once (_construct_url self interface "mode")
             (_get_mode self interface).
Proof.
  intros dev log. unfold _get_mode. run_driver.
  repeat next_test; reflexivity.
Qed.

Lemma get_native_vlan_log self interface :
  reads_once (_construct_url self interface "trunk")
             (_get_native_vlan self interface).
Proof.
  intros dev log. unfold _get_native_vlan. run_driver.
  repeat next_test; reflexivity.
Qed.

Lemma get_vlans_log self interface :
  reads_once (_construct_url self interface "trunk")
             (_get_vlans self interface).
Proof.
  intros dev log. unfold _get_vlans. run_driver.
  repeat next_test; try reflexivity.
  match goal with
  | |- context [vlans_of_text ?v ?d ?l] =>
      pose proof (vlans_of_text_log v d l) as Hl;
      destruct (vlans_of_text v d l) as [r l']
  end.
  cbn [snd] in Hl. subst l'.
  destruct r as [out|[]]; reflexivity.
Qed.

Lemma is_interface_off_reads_once self interface :
  reads_once (_construct_url self interface "")
             (_is_interface_off self interface).
Proof. intros dev log. apply BrocadeSpec.is_interface_off_log. Qed.


(** X6.  Each of the four readers sends exactly one request, a GET without a
    body to the URL of what it reads, whatever the device answers: a
    reader never changes the device. *)
Theorem readers_send_one_get self interface :
  reads_once (_construct_url self interface "")
             (_is_interface_off self interface) /\
  reads_once (_construct_url self interface "mode")
             (_get_mode self interface) /\
  reads_once (_construct_url self interface "trunk")
             (_get_vlans self interface) /\
  reads_once (_construct_url self interface "trunk")
             (_get_native_vlan self interface).
Proof.
  split; [apply is_interface_off_reads_once|].
  split; [apply get_mode_log|].
  split; [apply get_vlans_log | apply get_native_vlan_log].
Qed.



End UrlProperties.

Module ReaderProperties.
Import DriverFacts.

(** The codec never fails on a text. *)
Lemma vlans_of_text_returns t dev log :
  exists out, vlans_of_text (Some t) dev log = (Ok out, log).
Proof.
  destruct (VlanCodecFacts.text_read t) as [H|[pre [u [us [post [E [Hp [Hok Hs]]]]]]]].
  - eexists. now apply VlanCodecFacts.vlans_of_text_no_digit.
  - eexists. eapply VlanCodecFacts.vlans_of_text_list; eassumption.
Qed.

Lemma get_vlans_read self interface dev log root :
  tolerated [] (status_code (dev log (Req.trunk self interface))) = true ->
  text (dev log (Req.trunk self interface)) = Some root ->
  _get_vlans self interface dev log
  = match find_path root [_construct_tag "allowed"; _construct_tag "vlan";
                          _construct_tag "add"] with
    | None => (Ok [], log ++ [Req.trunk self interface])
    | Some add =>
        match Xml.text add with
        | None => (Raise TypeError, log ++ [Req.trunk self interface])
        | Some t => vlans_of_text (Some t) dev
                      (log ++ [Req.trunk self interface])
        end
    end.
Proof.
  intros Hs Ht. unfold Req.trunk in *. unfold _get_vlans, find_path.
  run_driver. rewrite Hs, Ht. cbv beta iota.
  destruct (Xml.find root _) as [allowed|]; [|reflexivity]. cbv beta iota.
  destruct (Xml.find allowed _) as [vlan|]; [|reflexivity]. cbv beta iota.
  destruct (Xml.find vlan _) as [add|]; [|reflexivity]. cbv beta iota.
  destruct (Xml.text add) as [t|]; [|reflexivity].
  destruct (vlans_of_text_returns t dev
              (log ++ [{| method := GET;
                          url := _construct_url self interface "trunk";
                          data := None |}])) as [out E].
  rewrite E. reflexivity.
Qed.

(** X7.  When the read of the trunk configuration succeeds and the nested [add]
    element has a text, [_get_vlans] returns the decoding of that text; it
    does not fail, whatever the text is. *)
Theorem get_vlans_decodes_add_text self interface dev log root add t :
  tolerated [] (status_code (dev log (Req.trunk self interface))) = true ->
  text (dev log (Req.trunk self interface)) = Some root ->
  find_path root [_construct_tag "allowed"; _construct_tag "vlan";
                  _construct_tag "add"] = Some add ->
  Xml.text add = Some t ->
  exists out,
    _get_vlans self interface dev log
    = (Ok out, log ++ [Req.trunk self interface]) /\
    vlans_of_text (Some t) dev log = (Ok out, log).
Proof.
  intros Hs Ht Hp Hx. rewrite (get_vlans_read self interface dev log Hs Ht).
  rewrite Hp, Hx.
  destruct (VlanCodecFacts.text_read t) as [H|[pre [u [us [post [E [Hn [Hok Hst]]]]]]]].
  - exists []. split; now apply VlanCodecFacts.vlans_of_text_no_digit.
  - eexists. split; eapply VlanCodecFacts.vlans_of_text_list; eassumption.
Qed.

(** [get_vlans_decodes_add_text] on a trunk that allows [12,14-18]. *)
Lemma get_vlans_decodes_add_text_witness :
  exists out,
    _get_vlans Sim.sw "1/0/1" (Sim.always 200 (Some Sim.doc_trunk)) []
    = (Ok out, [] ++ [Req.trunk Sim.sw "1/0/1"]) /\
    vlans_of_text (Some "12,14-18") (Sim.always 200 (Some Sim.doc_trunk)) []
    = (Ok out, []).
Proof.
  apply (@get_vlans_decodes_add_text Sim.sw "1/0/1"
           (Sim.always 200 (Some Sim.doc_trunk)) [] Sim.doc_trunk
           (Xml.Element (_construct_tag "add") (Some "12,14-18") [])
           "12,14-18"); reflexivity.
Defined.

(** X8.  When the nested [add] element is there and has no text, [_get_vlans]
    raises [TypeError]: the [None] text reaches [re.search], and the
    except clause only catches [AttributeError]. *)
Theorem get_vlans_empty_add_element self interface dev log root add :
  tolerated [] (status_code (dev log (Req.trunk self interface))) = true ->
  text (dev log (Req.trunk self interface)) = Some root ->
  find_path root [_construct_tag "allowed"; _construct_tag "vlan";
                  _construct_tag "add"] = Some add ->
  Xml.text add = None ->
  _get_vlans self interface dev log
  = (Raise TypeError, log ++ [Req.trunk self interface]).
Proof.
  intros Hs Ht Hp Hx. rewrite (get_vlans_read self interface dev log Hs Ht).
  now rewrite Hp, Hx.
Qed.

(** [get_vlans_empty_add_element] on a trunk with an empty [add]. *)
Lemma get_vlans_empty_add_element_witness :
  _get_vlans Sim.sw "1/0/1" (Sim.always 200 (Some SimDocs.doc_empty_add)) []
  = (Raise TypeError, [] ++ [Req.trunk Sim.sw "1/0/1"]).
Proof.
  apply (@get_vlans_empty_add_element Sim.sw "1/0/1"
           (Sim.always 200 (Some SimDocs.doc_empty_add)) []
           SimDocs.doc_empty_add
           (Xml.Element (_construct_tag "add") None []));
    reflexivity.
Defined.

(** What the two readers of the trunk configuration do with a failed
    read. *)
Lemma trunk_read_failures self interface dev log :
  (tolerated [] (status_code (dev log (Req.trunk self interface))) = false ->
   _get_vlans self interface dev log
   = (Raise (SwitchError (detail (dev log (Req.trunk self interface)))),
      log ++ [Req.trunk self interface]) /\
   _get_native_vlan self interface dev log
   = (Raise (SwitchError (detail (dev log (Req.trunk self interface)))),
      log ++ [Req.trunk self interface])) /\
  (tolerated [] (status_code (dev log (Req.trunk self interface))) = true ->
   text (dev log (Req.trunk self interface)) = None ->
   text_failure (dev log (Req.trunk self interface)) = NotWellFormed ->
   _get_vlans self interface dev log
   = (Raise XMLSyntaxError, log ++ [Req.trunk self interface]) /\
   _get_native_vlan self interface dev log
   = (Raise XMLSyntaxError, log ++ [Req.trunk self interface])) /\
  (tolerated [] (status_code (dev log (Req.trunk self interface))) = true ->
   text (dev log (Req.trunk self interface)) = None ->
   text_failure (dev log (Req.trunk self interface)) = EncodingDeclaration ->
   _get_vlans self interface dev log
   = (Raise ValueError, log ++ [Req.trunk self interface]) /\
   _get_native_vlan self interface dev log
   = (Raise ValueError, log ++ [Req.trunk self interface])).
Proof.
  unfold Req.trunk. split; [|split].
  - intros Hs. unfold _get_vlans, _get_native_vlan. run_driver.
    rewrite Hs. split; reflexivity.
  - intros Hs Ht Hw. unfold _get_vlans, _get_native_vlan. run_driver.
    rewrite Hs, Ht, Hw. split; reflexivity.
  - intros Hs Ht Hw. unfold _get_vlans, _get_native_vlan. run_driver.
    rewrite Hs, Ht, Hw. split; reflexivity.
Qed.

(** X9.  The except clause of [_get_vlans] and of [_get_native_vlan] lets the
    errors of the read through: an answer whose status is not tolerated
    raises [SwitchError] with the device's detail, a body that is not
    well-formed raises [XMLSyntaxError], and a unicode body with an
    encoding declaration raises [ValueError]; none is turned into an
    empty result. *)
Theorem except_clause_passes_device_errors self interface dev log :
  (tolerated [] (status_code (dev log (Req.trunk self interface))) = false ->
   _get_vlans self interface dev log
   = (Raise (SwitchError (detail (dev log (Req.trunk self interface)))),
      log ++ [Req.trunk self interface]) /\
   _get_native_vlan self interface dev log
   = (Raise (SwitchError (detail (dev log (Req.trunk self interface)))),
      log ++ [Req.trunk self interface])) /\
  (tolerated [] (status_code (dev log (Req.trunk self interface))) = true ->
   text (dev log (Req.trunk self interface)) = None ->
   text_failure (dev log (Req.trunk self interface)) = NotWellFormed ->
   _get_vlans self interface dev log
   = (Raise XMLSyntaxError, log ++ [Req.trunk self interface]) /\
   _get_native_vlan self interface dev log
   = (Raise XMLSyntaxError, log ++ [Req.trunk self interface])) /\
  (tolerated [] (status_code (dev log (Req.trunk self interface))) = true ->
   text (dev log (Req.trunk self interface)) = None ->
   text_failure (dev log (Req.trunk self interface)) = EncodingDeclaration ->
   _get_vlans self interface dev log
   = (Raise ValueError, log ++ [Req.trunk self interface]) /\
   _get_native_vlan self interface dev log
   = (Raise ValueError, log ++ [Req.trunk self interface])).
Proof. apply trunk_read_failures. Qed.

(** [except_clause_passes_device_errors] on a device that answers 500, on
    one that answers with a body that is not well-formed, and on one that
    answers with a body that declares its encoding. *)
Lemma except_clause_passes_device_errors_witness :
  (_get_vlans Sim.sw "1/0/1" (Sim.always 500 None) []
   = (Raise (SwitchError "device detail"), [Req.trunk Sim.sw "1/0/1"]) /\
   _get_native_vlan Sim.sw "1/0/1" (Sim.always 500 None) []
   = (Raise (SwitchError "device detail"), [Req.trunk Sim.sw "1/0/1"])) /\
  (_get_vlans Sim.sw "1/0/1" (Sim.always 200 None) []
   = (Raise XMLSyntaxError, [Req.trunk Sim.sw "1/0/1"]) /\
   _get_native_vlan Sim.sw "1/0/1" (Sim.always 200 None) []
   = (Raise XMLSyntaxError, [Req.trunk Sim.sw "1/0/1"])) /\
  (_get_vlans Sim.sw "1/0/1" (SimDocs.declares_encoding 200) []
   = (Raise ValueError, [Req.trunk Sim.sw "1/0/1"]) /\
   _get_native_vlan Sim.sw "1/0/1" (SimDocs.declares_encoding 200) []
   = (Raise ValueError, [Req.trunk Sim.sw "1/0/1"])).
Proof.
  split; [|split].
  - apply (proj1 (@except_clause_passes_device_errors Sim.sw "1/0/1"
                    (Sim.always 500 None) [])).
    reflexivity.
  - apply (proj1 (proj2 (@except_clause_passes_device_errors Sim.sw "1/0/1"
                           (Sim.always 200 None) []))); reflexivity.
  - apply (proj2 (proj2 (@except_clause_passes_device_errors Sim.sw "1/0/1"
                           (SimDocs.declares_encoding 200) [])));
      reflexivity.
Defined.

(** X10.  The errors a call of [_get_vlans] or [_get_native_vlan] can end in.
    [_get_vlans] raises nothing but [SwitchError] from the request,
    [XMLSyntaxError] and [ValueError] from [etree.fromstring], and
    [TypeError] from the search in an empty [add] element;
    [_get_native_vlan] nothing but the first three.  Neither ever raises
    [AttributeError], and once the body is parsed and the [add] element
    has a text, [_get_vlans] raises nothing. *)
Theorem trunk_readers_error_envelope self interface dev log :
  match fst (_get_vlans self interface dev log) with
  | Ok _ => True
  | Raise e =>
      get_vlans_error e /\
      (e = ValueError ->
       text (dev log (Req.trunk self interface)) = None /\
       text_failure (dev log (Req.trunk self interface))
       = EncodingDeclaration) /\
      (e = XMLSyntaxError ->
       text (dev log (Req.trunk self interface)) = None /\
       text_failure (dev log (Req.trunk self interface)) = NotWellFormed)
  end /\
  match fst (_get_native_vlan self interface dev log) with
  | Ok _ => True
  | Raise e => device_error e
  end.
Proof.
  split.
  - destruct (tolerated []
                (status_code (dev log (Req.trunk self interface)))) eqn:Hs.
    + destruct (text (dev log (Req.trunk self interface))) as [root|] eqn:Ht.
      * rewrite (get_vlans_read self interface dev log Hs Ht).
        destruct (find_path root _) as [add|]; [|exact I].
        destruct (Xml.text add) as [t|].
        -- destruct (vlans_of_text_returns t dev
                       (log ++ [Req.trunk self interface])) as [out ->].
           exact I.
        -- cbn [fst]. split; [exact I|]. split; discriminate.
      * destruct (text_failure (dev log (Req.trunk self interface))) eqn:Hw.
        -- rewrite (proj1 (proj1 (proj2 (trunk_read_failures
                                           self interface dev log))
                             Hs Ht Hw)).
           cbn [fst]. split; [exact I|]. split; [discriminate | auto].
        -- rewrite (proj1 (proj2 (proj2 (trunk_read_failures
                                           self interface dev log))
                             Hs Ht Hw)).
           cbn [fst]. split; [exact I|]. split; [auto | discriminate].
    + rewrite (proj1 (proj1 (trunk_read_failures
                               self interface dev log) Hs)).
      cbn [fst]. split; [exact I|]. split; discriminate.
  - unfold _get_native_vlan. run_driver.
    repeat next_test; exact I.
Qed.

End ReaderProperties.

Module UncheckedValues.
Import DriverFacts.

(** X11.  [_get_mode] hands back the text of the [vlan-mode] element as it is,
    whether or not it is [access] or [trunk], and [_get_native_vlan] the
    text of the [native-vlan] element, even when there is none; in no case
    does [_get_mode] raise the [AssertionError] its docstring speaks
    of. *)
Theorem readers_return_text_unchecked self interface dev log :
  (forall msg,
     fst (_get_mode self interface dev log) <> Raise (AssertionError msg)) /\
  (forall root el,
     tolerated [] (status_code (dev log (Req.get_mode self interface)))
     = true ->
     text (dev log (Req.get_mode self interface)) = Some root ->
     Xml.find root (_construct_tag "vlan-mode") = Some el ->
     _get_mode self interface dev log
     = (Ok (Xml.text el), log ++ [Req.get_mode self interface])) /\
  (forall root el,
     tolerated [] (status_code (dev log (Req.trunk self interface)))
     = true ->
     text (dev log (Req.trunk self interface)) = Some root ->
     Xml.find root (_construct_tag "native-vlan") = Some el ->
     _get_native_vlan self interface dev log
     = (Ok (Some ("vlan/native"%string, Xml.text el)),
        log ++ [Req.trunk self interface])).
Proof.
  split; [|split].
  - intros msg. unfold _get_mode. run_driver.
    repeat next_test; discriminate.
  - intros root el Hs Ht Hf. unfold Req.get_mode in *. unfold _get_mode.
    run_driver. rewrite Hs, Ht. cbv beta iota. rewrite Hf. reflexivity.
  - intros root el Hs Ht Hf. unfold Req.trunk in *. unfold _get_native_vlan.
    run_driver. rewrite Hs, Ht. cbv beta iota. rewrite Hf. reflexivity.
Qed.

(** [readers_return_text_unchecked] on a device that reports the mode
    ["bogus"], and on one whose [native-vlan] element is empty. *)
Lemma readers_return_text_unchecked_witness :
  _get_mode Sim.sw "1/0/1" (Sim.always 200 (Some SimDocs.doc_mode_other)) []
  = (Ok (Some "bogus"%string), [Req.get_mode Sim.sw "1/0/1"]) /\
  _get_native_vlan Sim.sw "1/0/1"
    (Sim.always 200 (Some SimDocs.doc_native_empty)) []
  = (Ok (Some ("vlan/native"%string, None)), [Req.trunk Sim.sw "1/0/1"]).
Proof.
  split.
  - apply (proj1 (proj2 (@readers_return_text_unchecked Sim.sw "1/0/1"
                    (Sim.always 200 (Some SimDocs.doc_mode_other)) []))
             SimDocs.doc_mode_other
             (Xml.Element (_construct_tag "vlan-mode") (Some "bogus"%string)
                          []));
      reflexivity.
  - apply (proj2 (proj2 (@readers_return_text_unchecked Sim.sw "1/0/1"
                    (Sim.always 200 (Some SimDocs.doc_native_empty)) []))
             SimDocs.doc_native_empty
             (Xml.Element (_construct_tag "native-vlan") None []));
      reflexivity.
Defined.

End UncheckedValues.

Module ToleranceProperties.
Import DriverFacts.

Lemma tolerated_one code c :
  status_success c = false -> (tolerated [code] c = true <-> c = code).
Proof.
  intros H. unfold tolerated, status_in. rewrite H. simpl.
  rewrite orb_false_r. apply Z.eqb_eq.
Qed.

Lemma tolerated_none c : status_success c = false -> tolerated [] c = false.
Proof. intros H. unfold tolerated. now rewrite H. Qed.

Lemma error_status_not_success c : (400 <= c)%Z -> status_success c = false.
Proof.
  intros H. unfold status_success. apply andb_false_iff. right.
  apply Z.ltb_ge. lia.
Qed.

(** X12.  The status a call tolerates is its own.  For an answer with an
    error status, 400 or above, [_port_shutdown] returns normally exactly
    on 409 and [_disable_native_tag] exactly on 404, while
    [_remove_native_vlan] and [_remove_vlan_from_trunk] raise
    [SwitchError] on every such answer, 404 and 409 included. *)
Theorem tolerance_is_per_call self interface vlan dev log :
  ((400 <= status_code (dev log (Req.shutdown self interface)))%Z ->
   (fst (_port_shutdown self interface dev log) = Ok tt <->
    status_code (dev log (Req.shutdown self interface)) = 409%Z)) /\
  ((400 <= status_code (dev log (Req.disable_native_tag self interface)))%Z ->
   (fst (_disable_native_tag self interface dev log) = Ok tt <->
    status_code (dev log (Req.disable_native_tag self interface)) = 404%Z)) /\
  ((400 <= status_code
             (dev log (remove_native_vlan_request self interface)))%Z ->
   _remove_native_vlan self interface dev log
   = (Raise (SwitchError
               (detail (dev log (remove_native_vlan_request self interface)))),
      log ++ [remove_native_vlan_request self interface])) /\
  ((400 <= status_code (dev log (Req.remove_vlan self interface vlan)))%Z ->
   _remove_vlan_from_trunk self interface vlan dev log
   = (Raise (SwitchError
               (detail (dev log (Req.remove_vlan self interface vlan)))),
      log ++ [Req.remove_vlan self interface vlan])).
Proof.
  split; [|split; [|split]].
  - intros H. apply error_status_not_success in H.
    rewrite <- (@tolerated_one 409 _ H).
    unfold _port_shutdown, Req.shutdown. run_driver.
    destruct (tolerated [409%Z] _); split; (reflexivity || discriminate).
  - intros H. apply error_status_not_success in H.
    rewrite <- (@tolerated_one 404 _ H).
    unfold _disable_native_tag, Req.disable_native_tag. run_driver.
    destruct (tolerated [404%Z] _); split; (reflexivity || discriminate).
  - intros H. apply error_status_not_success, tolerated_none in H.
    unfold remove_native_vlan_request in *.
    unfold _remove_native_vlan. run_driver. now rewrite H.
  - intros H. apply error_status_not_success, tolerated_none in H.
    unfold Req.remove_vlan in *.
    unfold _remove_vlan_from_trunk. run_driver. now rewrite H.
Qed.

(** [tolerance_is_per_call] on a device that answers 404 to everything:
    disabling the native tag goes through, the other three calls raise. *)
Lemma tolerance_is_per_call_witness :
  fst (_port_shutdown Sim.sw "1/0/1" (Sim.always 404 None) []) <> Ok tt /\
  fst (_disable_native_tag Sim.sw "1/0/1" (Sim.always 404 None) []) = Ok tt /\
  _remove_native_vlan Sim.sw "1/0/1" (Sim.always 404 None) []
  = (Raise (SwitchError "device detail"),
     [remove_native_vlan_request Sim.sw "1/0/1"]) /\
  _remove_vlan_from_trunk Sim.sw "1/0/1" "100" (Sim.always 404 None) []
  = (Raise (SwitchError "device detail"),
     [Req.remove_vlan Sim.sw "1/0/1" "100"]).
Proof.
  pose proof (@tolerance_is_per_call Sim.sw "1/0/1" "100"
                (Sim.always 404 None) []) as [H1 [H2 [H3 H4]]].
  split; [|split; [|split]].
  - intros H. apply H1 in H; [discriminate H | discriminate].
  - apply H2; [discriminate | reflexivity].
  - apply H3. discriminate.
  - apply H4. discriminate.
Defined.

End ToleranceProperties.

Module PortNameProperties.
Import Re Shape PortNameFacts PortNameTheorems.

(** X13.  [validate_port_name] on every name: it returns normally for the port
    names of the docstring and for those names followed by one newline,
    and raises [BadArgumentError] with its fixed message for every other
    name. *)
Theorem validate_port_name_total port :
  (passes_validation port /\ validate_port_name port = Ok tt) \/
  (~ passes_validation port /\
   validate_port_name port = Raise (BadArgumentError invalid_port_name)).
Proof.
  pose proof (validate_port_name_accepts port) as H.
  unfold passes_validation.
  destruct (validate_port_name port) as [[]|e] eqn:E.
  - left. split; [now apply H | reflexivity].
  - right. split.
    + intros Hp. apply H in Hp. discriminate Hp.
    + unfold validate_port_name in E.
      destruct (re_match port_name_re port); [discriminate|].
      symmetry. exact E.
Qed.

Lemma segment_port_chars ds :
  is_segment ds = true -> forallb port_char ds = true.
Proof.
  intros H. apply segment_digits in H.
  rewrite forallb_forall in *. intros c Hc. unfold port_char.
  now rewrite (H c Hc).
Qed.

Lemma port_form_chars port :
  port_form port = true ->
  forallb port_char (list_ascii_of_string port) = true.
Proof.
  intros H. apply port_form_iff in H.
  destruct H as [[a [b [Sa [Sb ->]]]]|[a [b [c [Sa [Sb [Sc ->]]]]]]];
    repeat (rewrite forallb_app || cbn [forallb]);
    rewrite ?segment_port_chars by assumption; reflexivity.
Qed.

(** X14.  A name that [validate_port_name] lets through has at least three
    characters, and they are digits, slashes and newlines only: no quote,
    percent sign or other character reaches the URL through it. *)
Theorem validated_port_characters port :
  validate_port_name port = Ok tt ->
  forallb port_char (list_ascii_of_string port) = true /\
  3 <= String.length port.
Proof.
  intros H. apply validate_port_name_accepts in H.
  assert (L : forall p, port_form p = true -> 3 <= String.length p).
  { intros p Hp. apply port_form_iff in Hp.
    rewrite <- (string_of_list_ascii_of_string p).
    assert (Hl : forall l, String.length (string_of_list_ascii l) = length l)
      by (induction l as [|x l IH]; simpl; [reflexivity | now rewrite IH]).
    rewrite Hl.
    destruct Hp as [[a [b [Sa [Sb ->]]]]|[a [b [c [Sa [Sb [Sc ->]]]]]]];
      rewrite ?length_app; cbn [length]; rewrite ?length_app; cbn [length];
      destruct a; try discriminate; destruct b; try discriminate;
      cbn [length]; lia. }
  destruct H as [H|[q [H ->]]].
  - split; [now apply port_form_chars | now apply L].
  - split.
    + rewrite list_ascii_of_string_app, forallb_app.
      rewrite port_form_chars by assumption. reflexivity.
    + apply L in H.
      assert (Hl : forall a b, String.length (a ++ b)%string
                               = String.length a + String.length b)
        by (induction a as [|x a IH]; intros b; simpl;
            [reflexivity | now rewrite IH]).
      rewrite Hl. lia.
Qed.

(** [validated_port_characters] on the name [1/0/1]. *)
Lemma validated_port_characters_witness :
  forallb port_char (list_ascii_of_string "1/0/1") = true /\
  3 <= String.length "1/0/1".
Proof.
  apply (@validated_port_characters "1/0/1"). reflexivity.
Defined.

End PortNameProperties.

Module SafetyProperties.
Import DriverFacts ModeRun SequenceProperties UrlProperties.
Import Re Shape PortNameFacts PortNameTheorems.

(** X15.  When the read of the port state fails, whatever the reason, the three
    calls that start with it stop there with the same error: the read is
    the only request sent, and nothing is changed on the device. *)
Theorem failed_state_read_stops_mutators self interface mode vlan dev log e :
  fst (_is_interface_off self interface dev log) = Raise e ->
  _enable_and_set_mode self interface mode dev log
  = (Raise e, log ++ [Req.state self interface]) /\
  _add_vlan_to_trunk self interface vlan dev log
  = (Raise e, log ++ [Req.state self interface]) /\
  _set_native_vlan self interface vlan dev log
  = (Raise e, log ++ [Req.state self interface]).
Proof.
  intros H.
  assert (E : forall m, _enable_and_set_mode self interface m dev log
                        = (Raise e, log ++ [Req.state self interface]))
    by (intros m; rewrite enable_and_set_mode_run; now rewrite H).
  split; [apply E|]. split.
  - rewrite add_vlan_to_trunk_run. now rewrite E.
  - rewrite set_native_vlan_run. now rewrite E.
Qed.

(** [failed_state_read_stops_mutators] on a port whose shutdown element
    says ["false"]. *)
Lemma failed_state_read_stops_mutators_witness :
  _enable_and_set_mode Sim.sw "1/0/1" "trunk"
    (Sim.always 200 (Some Sim.doc_odd)) []
  = (Raise (SwitchError "Could not determine if interface is off"),
     [] ++ [Req.state Sim.sw "1/0/1"]) /\
  _add_vlan_to_trunk Sim.sw "1/0/1" "100"
    (Sim.always 200 (Some Sim.doc_odd)) []
  = (Raise (SwitchError "Could not determine if interface is off"),
     [] ++ [Req.state Sim.sw "1/0/1"]) /\
  _set_native_vlan Sim.sw "1/0/1" "100"
    (Sim.always 200 (Some Sim.doc_odd)) []
  = (Raise (SwitchError "Could not determine if interface is off"),
     [] ++ [Req.state Sim.sw "1/0/1"]).
Proof.
  apply (@failed_state_read_stops_mutators Sim.sw "1/0/1" "trunk" "100"
           (Sim.always 200 (Some Sim.doc_odd)) []).
  reflexivity.
Defined.

Lemma cut_unique (c : ascii) : forall a b x y,
  ~ In c a -> ~ In c b -> a ++ c :: x = b ++ c :: y -> a = b.
Proof.
  induction a as [|p a IH]; intros [|q b] x y Ha Hb H; simpl in *.
  - reflexivity.
  - injection H as H1 H2. subst q. exfalso. apply Hb. now left.
  - injection H as H1 H2. subst p. exfalso. apply Ha. now left.
  - injection H as H1 H2. subst q. f_equal.
    apply (IH b x y); [intros Hin; apply Ha; now right
                      | intros Hin; apply Hb; now right | exact H2].
Qed.

Lemma port_chars_no_percent l :
  forallb port_char l = true -> ~ In "%"%char l.
Proof.
  intros H Hin. rewrite forallb_forall in H. apply H in Hin.
  discriminate Hin.
Qed.

Lemma validated_no_percent port :
  validate_port_name port = Ok tt ->
  ~ In "%"%char (list_ascii_of_string port).
Proof.
  intros H. apply port_chars_no_percent.
  apply validate_port_name_accepts in H.
  destruct H as [H|[q [H ->]]].
  - now apply PortNameProperties.port_form_chars.
  - rewrite list_ascii_of_string_app, forallb_app.
    rewrite PortNameProperties.port_form_chars by assumption. reflexivity.
Qed.

Lemma url_cancel_base (h c1 it c2 x y : string) :
  (h ++ c1 ++ it ++ c2 ++ x = h ++ c1 ++ it ++ c2 ++ y)%string -> x = y.
Proof. intros H. now repeat (apply append_inv_head in H). Qed.

(** X16.  Two different names that [validate_port_name] lets through never get
    the same URL on one switch, whatever the sub-resources: the quoting of
    the port keeps the resources of different ports apart. *)
Theorem validated_ports_have_distinct_urls self p1 p2 s1 s2 :
  validate_port_name p1 = Ok tt ->
  validate_port_name p2 = Ok tt ->
  p1 <> p2 ->
  _construct_url self p1 s1 <> _construct_url self p2 s2.
Proof.
  intros V1 V2 Hn H. apply Hn.
  cbv beta delta [_construct_url] in H.
  apply url_cancel_base in H.
  apply (f_equal list_ascii_of_string) in H.
  rewrite !list_ascii_of_string_app in H.
  change (list_ascii_of_string "%22")
    with ("%"%char :: list_ascii_of_string "22") in H.
  cbn [app] in H.
  apply cut_unique in H; try (now apply validated_no_percent).
  rewrite <- (string_of_list_ascii_of_string p1),
          <- (string_of_list_ascii_of_string p2).
  now rewrite H.
Qed.

(** [validated_ports_have_distinct_urls] on the ports [1/2] and [1/2/3]:
    the URL of [1/2/3] is not the URL of any sub-resource of [1/2]. *)
Lemma validated_ports_have_distinct_urls_witness :
  _construct_url Sim.sw "1/2" "trunk" <> _construct_url Sim.sw "1/2/3" "".
Proof.
  apply (@validated_ports_have_distinct_urls Sim.sw "1/2" "1/2/3"
           "trunk" "");
    [reflexivity | reflexivity | discriminate].
Defined.

End SafetyProperties.

Module SearchProperties.
Import Re ReFacts Shape PortNameFacts ReOrderFacts VlanPatternFacts.
Import PortNameTheorems.

Lemma rmatch_token n s s1 :
  rmatch n vlan_token_re s s1 ->
  exists t, token_ok t = true /\ s = token_text t ++ s1.
Proof.
  unfold vlan_token_re. intros H.
  inversion H as [| | | | |? ? ? ? ? Ha Ho| | | | |]; subst; clear H.
  apply rmatch_plus_digit in Ha. destruct Ha as [a [Sa ->]].
  inversion Ho as [| | | | | |? ? ? Hs| | | |]; subst; clear Ho.
  - inversion Hs as [| | | | |? ? ? ? ? Hl Hb| | | | |]; subst; clear Hs.
    inversion Hl; subst; clear Hl.
    apply rmatch_plus_digit in Hb. destruct Hb as [b [Sb ->]].
    exists (Range a b). simpl. rewrite Sa, Sb, <- app_assoc. auto.
  - exists (Single a). auto.
Qed.

Lemma rmatch_more_tokens n s1 s' :
  rmatch n (Star (Seq (Lit ","%char) vlan_token_re)) s1 s' ->
  exists ts, forallb token_ok ts = true /\ s1 = flat_map (fun u => ","%char :: token_text u) ts ++ s'.
Proof.
  intros H.
  remember (Star (Seq (Lit ","%char) vlan_token_re)) as r eqn:Er.
  induction H; inversion Er; subst.
  - now exists [].
  - destruct (IHrmatch2 eq_refl) as [ts [Hok ->]].
    inversion H as [| | | | |? ? ? ? ? Hl Ht| | | | |]; subst.
    inversion Hl; subst.
    apply rmatch_token in Ht. destruct Ht as [t [Hk ->]].
    exists (t :: ts). simpl. rewrite Hk, Hok, <- app_assoc. auto.
Qed.

(** What the list pattern matches: the text of a list of tokens. *)
Lemma rmatch_list n s s' :
  rmatch n vlan_list_re s s' ->
  exists t ts, token_ok t = true /\ forallb token_ok ts = true /\
               s = render t ts ++ s'.
Proof.
  unfold vlan_list_re. intros H.
  inversion H as [| | | | |? ? ? ? ? Ht Hm| | | | |]; subst; clear H.
  apply rmatch_token in Ht. destruct Ht as [t [Hk ->]].
  apply rmatch_more_tokens in Hm. destruct Hm as [ts [Hok ->]].
  exists t, ts. unfold render. rewrite <- app_assoc. auto.
Qed.

Lemma rmatch_list_starts_digit n s s' :
  rmatch n vlan_list_re s s' -> starts_digit s = true.
Proof.
  intros H. apply ends_complete in H.
  destruct (starts_digit s) eqn:E; [reflexivity|].
  rewrite list_fails in H by assumption. destruct H.
Qed.

Lemma segment_prefix : forall a' a X X',
  forallb is_digit a = true -> forallb is_digit a' = true ->
  starts_digit X = false -> a ++ X = a' ++ X' ->
  exists d, a = a' ++ d /\ X' = d ++ X /\ forallb is_digit d = true.
Proof.
  induction a' as [|c a' IH]; intros a X X' Ha Ha' HX E; simpl in *.
  - exists a. auto.
  - apply andb_true_iff in Ha'. destruct Ha' as [Hc Ha'].
    destruct a as [|c0 a]; simpl in *.
    + subst X. simpl in HX. congruence.
    + injection E as -> E. apply andb_true_iff in Ha. destruct Ha as [_ Ha].
      destruct (IH a X X' Ha Ha' HX E) as [d [-> [-> Hd]]].
      exists d. auto.
Qed.

Lemma token_text_starts_digit t X :
  token_ok t = true -> starts_digit (token_text t ++ X) = true.
Proof.
  assert (S : forall v Y, is_segment v = true -> starts_digit (v ++ Y) = true).
  { intros [|c v] Y H; [discriminate|].
    cbn [is_segment forallb] in H. apply andb_true_iff in H.
    now destruct H as [Hc _]. }
  destruct t as [v|lo hi]; cbn [token_ok token_text]; intros H.
  - now apply S.
  - apply andb_true_iff in H. destruct H as [Hlo _].
    rewrite <- app_assoc. now apply S.
Qed.

(** What is left after another token read from the same place: it is
    what is left after [t] with some more in front, and that does not
    start with a comma. *)
Lemma token_compare t t' R R' :
  token_ok t = true -> token_ok t' = true -> token_stops t R = true ->
  token_text t ++ R = token_text t' ++ R' ->
  exists e, R' = e ++ R /\
            (e = [] \/ exists c e', e = c :: e' /\ c <> ","%char).
Proof.
  intros Hk Hk' Hs E. unfold token_stops in Hs.
  apply andb_true_iff in Hs. destruct Hs as [Hd Hm].
  apply negb_true_iff in Hd.
  assert (digits_head : forall d, forallb is_digit d = true ->
            d = [] \/ exists c e', d = c :: e' /\ c <> ","%char).
  { intros [|c d] H; [now left|]. right. exists c, d. split; [reflexivity|].
    simpl in H. apply andb_true_iff in H. destruct H as [H _].
    intros ->. discriminate H. }
  destruct t as [a|a b]; destruct t' as [a'|a' b']; simpl in *.
  - destruct (segment_prefix a' a R R') as [d [_ [-> Hdd]]];
      auto using segment_digits.
    exists d. auto.
  - apply andb_true_iff in Hk'. destruct Hk' as [Sa' Sb'].
    rewrite <- app_assoc in E. simpl in E.
    destruct (segment_prefix a' a R _ (segment_digits _ Hk)
                (segment_digits _ Sa') Hd E) as [d [_ [E' Hdd]]].
    exfalso. destruct d as [|c d]; simpl in *.
    + subst R. apply negb_true_iff in Hm. simpl in Hm.
      destruct b' as [|c b']; [discriminate|]. simpl in *.
      apply andb_true_iff in Sb'. destruct Sb' as [Hc _].
      rewrite Hc in Hm. discriminate Hm.
    + injection E' as <- _. discriminate Hdd.
  - apply andb_true_iff in Hk. destruct Hk as [Sa Sb].
    rewrite <- app_assoc in E. simpl in E.
    destruct (segment_prefix a' a ("-"%char :: b ++ R) R'
                (segment_digits _ Sa) (segment_digits _ Hk') eq_refl E)
      as [d [_ [-> Hdd]]].
    exists (d ++ "-"%char :: b). split.
    + rewrite <- app_assoc. reflexivity.
    + right. destruct d as [|c d]; simpl.
      * exists "-"%char, b. split; [reflexivity | discriminate].
      * exists c, (d ++ "-"%char :: b). split; [reflexivity|].
        simpl in Hdd. apply andb_true_iff in Hdd. destruct Hdd as [Hc _].
        intros ->. discriminate Hc.
  - apply andb_true_iff in Hk. destruct Hk as [Sa Sb].
    apply andb_true_iff in Hk'. destruct Hk' as [Sa' Sb'].
    rewrite <- !app_assoc in E. simpl in E.
    destruct (segment_prefix a' a ("-"%char :: b ++ R)
                ("-"%char :: b' ++ R') (segment_digits _ Sa)
                (segment_digits _ Sa') eq_refl E) as [d [_ [E' Hdd]]].
    destruct d as [|c d]; simpl in *.
    + injection E' as E'.
      symmetry in E'.
      destruct (segment_prefix b' b R R' (segment_digits _ Sb)
                  (segment_digits _ Sb') Hd E') as [d2 [_ [-> Hd2]]].
      exists d2. auto.
    + injection E' as <- _. discriminate Hdd.
Qed.

(** Any list read from where the greedy reading starts ends no later
    than the greedy reading. *)
Lemma greedy_list_is_longest : forall ts' t' t ts post s',
  token_ok t = true -> forallb token_ok ts = true ->
  token_ok t' = true -> forallb token_ok ts' = true ->
  stops_after t ts post = true ->
  render t ts ++ post = render t' ts' ++ s' ->
  exists ext, s' = ext ++ post.
Proof.
  unfold render.
  induction ts' as [|u' ts' IH]; intros t' t ts post s' Hk Hks Hk' Hks' Hs E;
    rewrite <- !app_assoc in E.
  - destruct (token_compare t t' _ _ Hk Hk' (stops_after_first t ts post Hs) E)
      as [e [E' _]].
    simpl in E'. subst s'. exists (e ++ flat_map (fun u => ","%char :: token_text u) ts). now rewrite <- app_assoc.
  - destruct (token_compare t t' _ _ Hk Hk' (stops_after_first t ts post Hs) E)
      as [e [E' He]].
    simpl in Hks'. apply andb_true_iff in Hks'. destruct Hks' as [Hu' Hks'].
    cbn [flat_map] in E'. rewrite <- app_assoc in E'. simpl in E'.
    destruct He as [->|[c [e' [-> Hc]]]].
    2: { simpl in E'. injection E' as E1 _. congruence. }
    simpl in E'.
    destruct ts as [|u ts]; simpl in *.
    + exfalso. apply andb_true_iff in Hs. destruct Hs as [_ Hs].
      apply negb_true_iff in Hs. rewrite <- E' in Hs. simpl in Hs.
      rewrite token_text_starts_digit in Hs by assumption. discriminate Hs.
    + apply andb_true_iff in Hks. destruct Hks as [Hu Hks].
      rewrite <- app_assoc in E'. injection E' as E'.
      apply (IH u' u ts post s'); auto.
      rewrite <- !app_assoc. now symmetry.
Qed.

Lemma no_digit_starts s : no_digit s = true -> starts_digit s = false.
Proof.
  destruct s as [|c s]; [reflexivity|]. unfold no_digit. simpl.
  intros H. apply andb_true_iff in H. destruct H as [H _].
  now apply negb_true_iff in H.
Qed.

Lemma no_digit_app a b :
  no_digit (a ++ b) = true -> no_digit a = true /\ no_digit b = true.
Proof. unfold no_digit. rewrite forallb_app. apply andb_true_iff. Qed.

(** X17.  The search of [_get_vlans] is leftmost and longest.  When it finds
    nothing, no part of the text matches the list pattern.  When it finds
    a match, the match is a part of the text that matches the pattern, no
    match of the pattern from the same place goes further, and no match
    starts before it. *)
Theorem search_is_leftmost_longest text :
  match Re.re_search vlan_list_re text with
  | None =>
      forall before from rest,
        list_ascii_of_string text = before ++ from ->
        ~ rmatch (length (list_ascii_of_string text)) vlan_list_re from rest
  | Some m =>
      exists pre post,
        list_ascii_of_string text
        = pre ++ list_ascii_of_string (group m) ++ post /\
        rmatch (length (list_ascii_of_string text)) vlan_list_re
               (list_ascii_of_string (group m) ++ post) post /\
        (forall rest,
           rmatch (length (list_ascii_of_string text)) vlan_list_re
                  (list_ascii_of_string (group m) ++ post) rest ->
           length post <= length rest) /\
        (forall p1 p2 rest,
           pre = p1 ++ p2 -> p2 <> [] ->
           ~ rmatch (length (list_ascii_of_string text)) vlan_list_re
                    (p2 ++ list_ascii_of_string (group m) ++ post) rest)
  end.
Proof.
  unfold re_search.
  generalize (length (list_ascii_of_string text)) as n. intros n.
  destruct (VlanCodecFacts.text_read text)
    as [H|[pre [t [ts [post [E [Hp [Hok Hs]]]]]]]].
  - rewrite search_none by assumption.
    intros before from rest E Hm.
    apply rmatch_list_starts_digit in Hm.
    rewrite E in H. apply no_digit_app in H. destruct H as [_ H].
    apply no_digit_starts in H. congruence.
  - pose proof Hok as Hok'. cbn [forallb] in Hok'.
    apply andb_true_iff in Hok'. destruct Hok' as [Ht Hts].
    rewrite E, search_skip by assumption.
    rewrite search_found by (now apply list_lead).
    exists pre, post. cbn [group].
    rewrite list_ascii_of_string_of_list_ascii.
    split; [reflexivity|]. split; [|split].
    + destruct (list_lead n t ts post Ht Hts Hs) as [tl El].
      apply ends_sound. rewrite El. now left.
    + intros rest Hm. apply rmatch_list in Hm.
      destruct Hm as [t' [ts' [Ht' [Hts' Em]]]].
      destruct (greedy_list_is_longest ts' t' t ts post rest
                  Ht Hts Ht' Hts' Hs Em) as [ext ->].
      rewrite length_app. lia.
    + intros p1 p2 rest -> Hn Hm.
      apply rmatch_list_starts_digit in Hm.
      apply no_digit_app in Hp. destruct Hp as [_ Hp].
      destruct p2 as [|c p2]; [congruence|].
      apply no_digit_starts in Hp. simpl in *. congruence.
Qed.

End SearchProperties.
